(** * Proxies.create / Proxies.trace and PagingBrowser.perc

    A shallow embedding of [web/js/proxies/Proxies.js] and of the percentage
    arithmetic of [web/js/electron/capture/pagination/PagingBrowser.js].

    JavaScript objects live in a heap of cells addressed by location; the
    module-level [sequence] counter, the heap and the trace handlers built by
    [new TraceHandler] form the program state, which every operation threads
    explicitly.  A [throw] is a [Throw] result together with the state reached
    when it was raised.

    The integers the code counts with are [Z]; the numbers of the pagination
    arithmetic are [Q].  [PagingBrowser] computes with them exactly;
    [PagingBrowserDoubles] rounds the result of every operation as doubles
    do ([Binary64.round]). *)

From Stdlib Require Import ZArith QArith Qround Qminmax Lia.
From stdpp Require Import base decidable option list strings pretty gmap.

Set Warnings "-clear-no-such-hyp".

Open Scope Z_scope.
Open Scope nat_scope.
Open Scope string_scope.
Open Scope list_scope.
Open Scope stdpp_scope.

(** ** JavaScript values and objects *)

Module Js.

(** Locations are indices into the heap. *)
Abbreviation loc := nat (only parsing).

(** The callables that can be met as a property value: a function of the
    program using the library (opaque), or the registration method that
    [Proxies.trace] installs, [traceHandler.addTraceListener.bind(traceHandler)],
    which remembers the handler it is bound to. *)
Inductive fn : Type :=
| FHost (n : nat)
| FAddTraceListener (h : nat).

Inductive value : Type :=
| VUndefined
| VNull
| VBool (b : bool)
| VNumber (n : Z)
| VString (s : string)
| VSymbol (n : nat)
| VFunction (f : fn)
| VObject (l : loc).

#[global] Instance fn_eq_dec : EqDecision fn.
Proof. solve_decision. Defined.

#[global] Instance value_eq_dec : EqDecision value.
Proof. solve_decision. Defined.

(** A data property with its attributes (accessor properties are not
    represented). *)
Record property : Type := Property {
  p_value : value;
  p_writable : bool;
  p_enumerable : bool;
  p_configurable : bool
}.

Inductive obj_class : Type := Ordinary | ArrayObject.

(** An ordinary or array object: own properties (the elements of an array are
    its properties "0", "1", ... and "length"), prototype link and the
    [[Extensible]] flag.  [o_proto = None] stands for a built-in prototype,
    which carries none of the property names used by the tracer. *)
Record object : Type := Object {
  o_props : gmap string property;
  o_proto : option loc;
  o_extensible : bool;
  o_class : obj_class
}.

(** [new Proxy(target, handler)]: the target's location and the index of the
    TraceHandler in the handler store. *)
Inductive cell : Type :=
| CObject (o : object)
| CProxy (target : loc) (handler : nat).

(** The fields a TraceHandler is constructed with: [path], the listeners of
    the list it was given, and the raw value it backs. *)
Record trace_handler : Type := mkTraceHandler {
  th_path : string;
  th_traceListeners : list value;
  th_target : value
}.

Record state : Type := State {
  sequence : Z;
  heap : list cell;
  handlers : list trace_handler
}.

Inductive exn : Type :=
| Error (msg : string)
| TypeError (msg : string).

Inductive result (A : Type) : Type :=
| Return (a : A)
| Throw (e : exn).
Arguments Return {A} a.
Arguments Throw {A} e.

(** ** State and exception passing *)

Definition M (A : Type) : Type := state -> result A * state.

Definition ret {A} (a : A) : M A := fun s => (Return a, s).

Definition throw {A} (e : exn) : M A := fun s => (Throw e, s).

Definition bind {A B} (c : M A) (k : A -> M B) : M B :=
  fun s =>
    match c s with
    | (Return a, s') => k a s'
    | (Throw e, s') => (Throw e, s')
    end.

Definition gets {A} (f : state -> A) : M A := fun s => (Return (f s), s).

Declare Scope js_scope.
Delimit Scope js_scope with js.
Notation "'let*' x ':=' c 'in' k" := (bind c (fun x => k))
  (at level 10, x name, c at level 100, k at level 200) : js_scope.
Open Scope js_scope.

(** [array.forEach(callback)] for a callback that may throw. *)
Fixpoint forEach {A} (xs : list A) (callback : A -> M unit) : M unit :=
  match xs with
  | [] => ret tt
  | x :: rest => let* _ := callback x in forEach rest callback
  end.

(** ** Language primitives *)

Definition typeof (v : value) : string :=
  match v with
  | VUndefined => "undefined"
  | VNull => "object"
  | VBool _ => "boolean"
  | VNumber _ => "number"
  | VString _ => "string"
  | VSymbol _ => "symbol"
  | VFunction _ => "function"
  | VObject _ => "object"
  end.

(** Type(v) is Object: what the language calls an object (functions
    included, [null] not). *)
Definition is_object (v : value) : bool :=
  match v with
  | VObject _ | VFunction _ => true
  | _ => false
  end.

(** ToBoolean. *)
Definition truthy (v : value) : bool :=
  match v with
  | VUndefined | VNull => false
  | VBool b => b
  | VNumber n => negb (n =? 0)%Z
  | VString s => negb (String.eqb s "")
  | VSymbol _ | VFunction _ | VObject _ => true
  end.

(** The object a reference denotes once proxies are looked through: the
    proxies of this program are backed by trace handlers, which trap property
    reads, writes and deletions only, so [Object.isFrozen], [in] and
    [Object.defineProperty] on a proxy reach its target.  A proxy is allocated
    after its target, so the walk goes to strictly smaller locations and
    [S l] steps are always enough. *)
Fixpoint target_of (fuel : nat) (h : list cell) (l : loc) : option loc :=
  match fuel with
  | O => None
  | S fuel' =>
      match h !! l with
      | Some (CObject _) => Some l
      | Some (CProxy t _) => if decide (t < l) then target_of fuel' h t else None
      | None => None
      end
  end.

Definition resolve (h : list cell) (l : loc) : option (loc * object) :=
  match target_of (S l) h l with
  | Some b => match h !! b with
              | Some (CObject o) => Some (b, o)
              | _ => None
              end
  | None => None
  end.

(** [[GetProperty]] along the prototype chain, looking through proxies (a
    TraceHandler passes the reads of ordinary properties on to its target).
    Prototypes are objects allocated before their heirs. *)
Fixpoint find_property (fuel : nat) (h : list cell) (l : loc) (name : string)
  : option property :=
  match fuel with
  | O => None
  | S fuel' =>
      match h !! l with
      | Some (CObject o) =>
          match o_props o !! name with
          | Some p => Some p
          | None =>
              match o_proto o with
              | Some p => if decide (p < l) then find_property fuel' h p name else None
              | None => None
              end
          end
      | Some (CProxy t _) => if decide (t < l) then find_property fuel' h t name else None
      | None => None
      end
  end.

Definition lookup_property (h : list cell) (v : value) (name : string) : option property :=
  match v with
  | VObject l => find_property (S l) h l name
  | _ => None
  end.

(** [value.name] read off a heap. *)
Definition property_value (h : list cell) (v : value) (name : string) : value :=
  from_option p_value VUndefined (lookup_property h v name).

(** [name in value] (the operator throws on a right operand that is not an
    object). *)
Definition has_property (v : value) (name : string) : M bool :=
  match v with
  | VObject _ => gets (fun s => bool_decide (is_Some (lookup_property (heap s) v name)))
  | _ => throw (TypeError "Cannot use 'in' operator to search for a key in a non-object")
  end.

(** [value.name] (reading a property of [undefined] or [null] throws). *)
Definition get (v : value) (name : string) : M value :=
  match v with
  | VUndefined | VNull => throw (TypeError "Cannot read properties of null or undefined")
  | _ => gets (fun s => property_value (heap s) v name)
  end.

Definition frozen_property (p : property) : bool :=
  negb (p_writable p) && negb (p_configurable p).

(** TestIntegrityLevel(O, frozen) on an object record. *)
Definition frozen_object (o : object) : bool :=
  negb (o_extensible o) &&
  bool_decide (map_Forall (fun _ p => frozen_property p = true) (o_props o)).

(** [Object.isFrozen(value)]: a value that is not an object counts as frozen. *)
Definition isFrozen (v : value) : M bool :=
  gets (fun s =>
    match v with
    | VObject l => match resolve (heap s) l with
                   | Some (_, o) => frozen_object o
                   | None => false
                   end
    | _ => true
    end).

Definition set_heap (s : state) (h : list cell) : state :=
  State (sequence s) h (handlers s).

Definition set_handlers (s : state) (hs : list trace_handler) : state :=
  State (sequence s) (heap s) hs.

(** Allocation of a fresh cell, at the end of the heap. *)
Definition alloc (c : cell) : M loc :=
  fun s => (Return (length (heap s)), set_heap s (heap s ++ [c])).

Definition with_prop (o : object) (name : string) (p : property) : object :=
  Object (<[name := p]> (o_props o)) (o_proto o) (o_extensible o) (o_class o).

(** ValidateAndApplyPropertyDescriptor for the descriptor
    [{value: x, enumerable: false, writable: false}]: attributes that the
    descriptor leaves out default to false on a new property and are kept on
    an existing one.  [None] is a rejected definition. *)
Definition define_data_property (o : object) (name : string) (x : value) : option object :=
  match o_props o !! name with
  | None =>
      if o_extensible o then Some (with_prop o name (Property x false false false))
      else None
  | Some cur =>
      if p_configurable cur then Some (with_prop o name (Property x false false true))
      else if p_enumerable cur then None
      else if p_writable cur then Some (with_prop o name (Property x false false false))
      else if bool_decide (p_value cur = x) then Some o
      else None
  end.

(** [Object.defineProperty(value, name, {value: x, enumerable: false,
    writable: false})]; a proxy hands the definition to its target. *)
Definition defineProperty (v : value) (name : string) (x : value) : M unit :=
  fun s =>
    match v with
    | VObject l =>
        match resolve (heap s) l with
        | Some (b, o) =>
            match define_data_property o name x with
            | Some o' => (Return tt, set_heap s (<[b := CObject o']> (heap s)))
            | None => (Throw (TypeError ("Cannot define property " ++ name)), s)
            end
        | None => (Throw (TypeError "Object.defineProperty called on non-object"), s)
        end
    | _ => (Throw (TypeError "Object.defineProperty called on non-object"), s)
    end.

(** An array literal: elements as index properties, followed by [length]. *)
Definition array_object (xs : list value) : object :=
  Object
    (<["length" := Property (VNumber (Z.of_nat (length xs))) true false false]>
       (list_to_map (imap (fun i x => (pretty i, Property x true true true)) xs)))
    None true ArrayObject.

Definition new_array (xs : list value) : M value :=
  let* l := alloc (CObject (array_object xs)) in ret (VObject l).

Definition array_elems (o : object) : list value :=
  match o_props o !! "length" with
  | Some (Property (VNumber n) _ _ _) =>
      map (fun i : nat => from_option p_value VUndefined (o_props o !! pretty i))
          (seq 0 (Z.to_nat n))
  | _ => []
  end.

(** [Array.isArray(value)] *)
Definition isArray (h : list cell) (v : value) : bool :=
  match v with
  | VObject l => match resolve h l with
                 | Some (_, Object _ _ _ ArrayObject) => true
                 | _ => false
                 end
  | _ => false
  end.

(** The targets of the proxies of a heap, in allocation order. *)
Definition proxy_targets (h : list cell) : list loc :=
  omap (fun c => match c with CProxy t _ => Some t | CObject _ => None end) h.

Definition elements_of (h : list cell) (v : value) : list value :=
  match v with
  | VObject l => match resolve h l with
                 | Some (_, o) => array_elems o
                 | None => []
                 end
  | _ => []
  end.

End Js.

Import Js.

(** ** Collaborators of Proxies.js *)

Module TraceListeners.

(** Modelled from the spec: [TraceListeners.asArray] is not among the sources.
    "Listener normalizer: asArray(listenerOrList) -> ordered list; identity if
    already a list, wraps a single listener into a one-element list, empty
    input yields empty list." *)
Definition asArray (input : value) : M value :=
  let* is_list := gets (fun s => isArray (heap s) input) in
  if is_list then ret input
  else if truthy input then new_array [input]
  else new_array [].

End TraceListeners.

Module Objects.

Record Options : Type := mkOptions { pathPrefix : option string }.

(** Modelled from the spec: [Objects.defaults] is not among the sources.
    "withDefaults(options, defaults) -> merged options; shallow-merges
    caller-supplied options over defaults." *)
Definition defaults (opts : option Options) (dflt : Options) : Options :=
  match opts with
  | Some o => mkOptions (match pathPrefix o with
                         | Some p => Some p
                         | None => pathPrefix dflt
                         end)
  | None => dflt
  end.

End Objects.

Module TraceHandler.

(** Modelled from the spec: the TraceHandler class is not among the sources.
    "Holds: the node's path, its listener list, the raw underlying value";
    "created once per node at trace time".  The constructor returns the index
    of the new handler. *)
Definition construct (path : string) (traceListeners : value) (target : value) : M nat :=
  fun s =>
    (Return (length (handlers s)),
     set_handlers s (handlers s ++
       [mkTraceHandler path (elements_of (heap s) traceListeners) target])).

(** Modelled from the spec: the handler store after handler [h] has been
    given more listeners, which "appends to the existing ordered list". *)
Definition append_listeners (hs : list trace_handler) (h : nat) (listeners : list value)
  : list trace_handler :=
  match hs !! h with
  | Some th =>
      <[h := mkTraceHandler (th_path th) (th_traceListeners th ++ listeners)
                            (th_target th)]> hs
  | None => hs
  end.

(** Modelled from the spec: "dynamic registration of additional listeners
    after creation via addTraceListener, which appends to the existing ordered
    list (duplicates are not deduplicated)", for the argument
    [listenerOrList]. *)
Definition addTraceListener (h : nat) (listenerOrList : value) : M value :=
  let* list := TraceListeners.asArray listenerOrList in
  fun s =>
    (Return VUndefined,
     set_handlers s (append_listeners (handlers s) h (elements_of (heap s) list))).

End TraceHandler.

(** ** Proxies.js *)

Module Proxies.

(** One record of [ObjectPaths.recurse]; [e_parent = None] is the null parent
    of the root's record. *)
Record ObjectPathEntry : Type := mkEntry {
  e_path : string;
  e_value : value;
  e_parent : option loc;
  e_parentKey : string
}.

Section WithCollaborators.

(** Code that is called but lives outside Proxies.js: the body of a function
    of the surrounding program, the [set] trap of a TraceHandler (met when a
    parent is itself a proxy), [Paths.create] and [ObjectPaths.recurse], which
    reads the graph and yields its records. *)
Variable host_call : nat -> value -> list value -> M value.
Variable TraceHandler_set : nat -> loc -> string -> value -> M unit.
Variable Paths_create : string -> string -> string.
Variable ObjectPaths_recurse : value -> state -> list ObjectPathEntry.

(** [f.call(this, ...args)] *)
Definition call (f : value) (this : value) (args : list value) : M value :=
  match f with
  | VFunction (FAddTraceListener h) => TraceHandler.addTraceListener h (hd VUndefined args)
  | VFunction (FHost n) => host_call n this args
  | _ => throw (TypeError "value.addTraceListener is not a function")
  end.

(** [new Proxy(value, traceHandler)] *)
Definition new_Proxy (v : value) (traceHandler : nat) : M value :=
  match v with
  | VObject l => let* p := alloc (CProxy l traceHandler) in ret (VObject p)
  | _ => throw (TypeError "Cannot create proxy with a non-object as target or handler")
  end.

(** [sequence++]: the value before the increment is the result. *)
Definition next_sequence : M Z :=
  fun s => (Return (sequence s), State (sequence s + 1) (heap s) (handlers s)).

(** [parent[parentKey] = x] in strict code (a class body): an assignment that
    the object refuses throws. *)
Definition assign (parent : loc) (key : string) (x : value) : M unit :=
  fun s =>
    match heap s !! parent with
    | Some (CProxy t h) => TraceHandler_set h t key x s
    | Some (CObject o) =>
        let create :=
          if o_extensible o
          then (Return tt,
                set_heap s (<[parent := CObject (with_prop o key (Property x true true true))]> (heap s)))
          else (Throw (TypeError ("Cannot add property " ++ key ++ ", object is not extensible")), s) in
        match o_props o !! key with
        | Some cur =>
            if p_writable cur
            then (Return tt,
                  set_heap s (<[parent := CObject (with_prop o key
                     (Property x true (p_enumerable cur) (p_configurable cur)))]> (heap s)))
            else (Throw (TypeError ("Cannot assign to read only property " ++ key)), s)
        | None =>
            match lookup_property (heap s) (VObject parent) key with
            | Some inherited =>
                if p_writable inherited then create
                else (Throw (TypeError ("Cannot assign to read only property " ++ key)), s)
            | None => create
            end
        end
    | None => (Throw (TypeError "Cannot set properties of undefined"), s)
    end.

(** The callback of [privateMembers.forEach] (lines 116-132). *)
Definition define_if_absent (value : value) (privateMember : string * Js.value) : M unit :=
  let* present := has_property value (fst privateMember) in
  if negb present
  then defineProperty value (fst privateMember) (snd privateMember)
  else ret tt.

(** Lines 134-142: hand the listeners to the registration method the value
    already has, or install the one of [traceHandler]. *)
Definition register_listeners (value : value) (traceListeners : Js.value)
    (traceHandler : nat) : M unit :=
  let* registered := get value "addTraceListener" in
  if truthy registered
  then let* _ := call registered value [traceListeners] in ret tt
  else defineProperty value "addTraceListener"
         (VFunction (FAddTraceListener traceHandler)).

Definition trace (path : string) (value : value) (traceListeners : Js.value) : M Js.value :=
  if negb (String.eqb (typeof value) "object")
  then throw (Error "We can only trace object types.")
  else
    let* traceListeners := TraceListeners.asArray traceListeners in
    let* frozen := isFrozen value in
    if frozen then ret value
    else
      let* traceHandler := TraceHandler.construct path traceListeners value in
      let* id := next_sequence in
      let privateMembers :=
        [ ("__traceIdentifier", VNumber id);
          ("__traceListeners", traceListeners);
          ("__path", VString path) ] in
      let* _ := forEach privateMembers (define_if_absent value) in
      let* _ := register_listeners value traceListeners traceHandler in
      new_Proxy value traceHandler.

(** The path a record is traced under (lines 52-56). *)
Definition entry_path (opts : Objects.Options) (objectPathEntry : ObjectPathEntry) : string :=
  match Objects.pathPrefix opts with
  | Some prefix =>
      if truthy (VString prefix) && negb (String.eqb prefix "")
      then Paths_create prefix (e_path objectPathEntry)
      else e_path objectPathEntry
  | None => e_path objectPathEntry
  end.

(** The callback of [objectPathEntries.forEach]; the captured variable [root]
    is passed in and its new content returned. *)
Definition create_entry (opts : Objects.Options) (traceListeners : value)
    (root : value) (objectPathEntry : ObjectPathEntry) : M value :=
  let path := entry_path opts objectPathEntry in
  let* proxy := trace path (e_value objectPathEntry) traceListeners in
  match e_parent objectPathEntry with
  | Some parent => let* _ := assign parent (e_parentKey objectPathEntry) proxy in ret root
  | None => ret proxy
  end.

Fixpoint create_entries (opts : Objects.Options) (traceListeners : value)
    (root : value) (objectPathEntries : list ObjectPathEntry) : M value :=
  match objectPathEntries with
  | [] => ret root
  | objectPathEntry :: rest =>
      let* root := create_entry opts traceListeners root objectPathEntry in
      create_entries opts traceListeners root rest
  end.

Definition create (target : value) (traceListeners : value)
    (opts : option Objects.Options) : M value :=
  if negb (String.eqb (typeof target) "object")
  then throw (Error ("Only works on objects: " ++ typeof target))
  else
    let opts := Objects.defaults opts (Objects.mkOptions (Some "")) in
    let* traceListeners :=
      if negb (truthy traceListeners) then new_array [] else ret traceListeners in
    let* traceListeners := TraceListeners.asArray traceListeners in
    let* objectPathEntries := gets (ObjectPaths_recurse target) in
    let root := VNull in
    create_entries opts traceListeners root objectPathEntries.

End WithCollaborators.

(** The names of [privateMembers]. *)
Definition hidden_names : list string :=
  ["__traceIdentifier"; "__traceListeners"; "__path"].

(** The value's [addTraceListener] is a function of the surrounding program,
    not a registration method installed by [trace]. *)
Definition registered_by_host (h : list cell) (v : value) : bool :=
  match property_value h v "addTraceListener" with
  | VFunction (FHost _) => true
  | _ => false
  end.

(** The trace handlers constructed for a value, and the proxies wrapping the
    object at a location. *)
Definition handlers_of (s : state) (v : value) : list trace_handler :=
  filter (fun th => th_target th = v) (handlers s).

Definition proxies_of (s : state) (l : loc) : list loc :=
  filter (fun t => t = l) (proxy_targets (heap s)).

End Proxies.

(** ** PagingBrowser.js: the scroll percentage *)

Module PagingBrowser.

Record Point : Type := mkPoint { x : Q; y : Q }.

Record Dimensions : Type := mkDimensions { width : Q; height : Q }.

Record PagingState : Type := mkPagingState {
  scrollPosition : Point;
  scrollBox : Dimensions;
  viewportBox : Dimensions
}.

(** [Math.ceil(Math.min(100 * (Math.ceil(n) / d), 100))] *)
Definition perc (n d : Q) : Q :=
  inject_Z (Qceiling (Qmin (inject_Z 100 * (inject_Z (Qceiling n) / d)) (inject_Z 100))).

(** [Preconditions.assertNotNull(state, "state")] fails on a null state:
    [None] stands for the state that is null as an argument and for the
    failure as a result. *)
Definition visualScrollPercentage (state : option PagingState) : option Dimensions :=
  match state with
  | None => None
  | Some state =>
      Some (mkDimensions
        (perc (x (scrollPosition state) + width (viewportBox state))%Q
              (width (scrollBox state)))
        (perc (y (scrollPosition state) + height (viewportBox state))%Q
              (height (scrollBox state))))
  end.

Definition fullyPaginated (state : option PagingState) : option bool :=
  match state with
  | None => None
  | Some _ =>
      match visualScrollPercentage state with
      | Some visualScrollPercentage =>
          Some (Qle_bool (inject_Z 100) (height visualScrollPercentage))
      | None => None
      end
  end.

End PagingBrowser.

(** ** Concrete collaborators and heaps, used to run the code *)

Module Scenario.
Import Proxies.

(** A host function that does nothing, a set trap that is never reached, and
    a path join with a dot. *)
Definition quiet_host : nat -> value -> list value -> M value :=
  fun _ _ _ => ret VUndefined.

Definition no_set_trap : nat -> loc -> string -> value -> M unit :=
  fun _ _ _ _ => ret tt.

Definition dotted (prefix path : string) : string := prefix ++ "." ++ path.

(** An object literal: writable, enumerable, configurable properties. *)
Definition literal (ps : list (string * value)) : object :=
  Object (list_to_map (map (fun kv => (fst kv, Property (snd kv) true true true)) ps))
         None true Ordinary.

(** [Object.freeze(o)] on an object record. *)
Definition freeze (o : object) : object :=
  Object ((fun p => Property (p_value p) false (p_enumerable p) false) <$> o_props o)
         (o_proto o) false (o_class o).

(** Location 0: the listener list [[]]; location 1: [{b: 1}]. *)
Definition one_object : state :=
  State 0 [CObject (array_object []); CObject (literal [("b", VNumber 1)])] [].

(** Location 0: the listener list [[]]; location 1: the child [{}];
    location 2: [Object.freeze({a: child})]. *)
Definition frozen_parent : state :=
  State 0 [CObject (array_object []); CObject (literal []);
           CObject (freeze (literal [("a", VObject 1)]))] [].

(** Location 2: [{a: child}], not frozen. *)
Definition plain_parent : state :=
  State 0 [CObject (array_object []); CObject (literal []);
           CObject (literal [("a", VObject 1)])] [].

(** Location 0: the listener list [[]]; locations 1 and 2: [{b: 1}] and
    [{c: 2}]. *)
Definition two_objects : state :=
  State 0 [CObject (array_object []); CObject (literal [("b", VNumber 1)]);
           CObject (literal [("c", VNumber 2)])] [].

(** The walk of the two graphs above: the root, then its child under "a". *)
Definition walk_parent_child : value -> state -> list ObjectPathEntry :=
  fun _ _ => [mkEntry "" (VObject 2) None ""; mkEntry "a" (VObject 1) (Some 2) "a"].

End Scenario.

(** * Properties of PagingBrowser.perc *)

Module PagingBrowserSpec.
Import PagingBrowser.







End PagingBrowserSpec.

(** * Properties of Proxies.create and Proxies.trace *)

Module ProxiesSpec.
Import Proxies.

#[local] Arguments target_of : simpl never.
#[local] Arguments find_property : simpl never.

(** ** The heap primitives *)

Lemma target_of_S fuel h l :
  target_of (S fuel) h l =
    match h !! l with
    | Some (CObject _) => Some l
    | Some (CProxy t _) => if decide (t < l) then target_of fuel h t else None
    | None => None
    end.
Proof. done. Qed.

Lemma find_property_S fuel h l name :
  find_property (S fuel) h l name =
    match h !! l with
    | Some (CObject o) =>
        match o_props o !! name with
        | Some p => Some p
        | None =>
            match o_proto o with
            | Some p => if decide (p < l) then find_property fuel h p name else None
            | None => None
            end
        end
    | Some (CProxy t _) => if decide (t < l) then find_property fuel h t name else None
    | None => None
    end.
Proof. done. Qed.

Lemma target_of_Some fuel h l b :
  target_of fuel h l = Some b -> b <= l /\ exists o, h !! b = Some (CObject o).
Proof.
  revert l. induction fuel as [|fuel IH]; intros l; [discriminate|].
  rewrite target_of_S.
  destruct (h !! l) as [[o|t th]|] eqn:E; try discriminate.
  - intros [= <-]. eauto.
  - case_decide; [|discriminate]. intros Ht. apply IH in Ht as [Hle Hex]. split; [lia|done].
Qed.

Lemma resolve_Some h l b o :
  resolve h l = Some (b, o) ->
  h !! b = Some (CObject o) /\ b <= l /\ l < length h.
Proof.
  unfold resolve. destruct (target_of (S l) h l) as [b'|] eqn:E; [|discriminate].
  pose proof (target_of_Some _ _ _ _ E) as [Hle _].
  destruct (h !! b') as [[o'|]|] eqn:E'; try discriminate.
  intros [= <- <-]. repeat split; try done.
  rewrite target_of_S in E. destruct (h !! l) eqn:El; [|discriminate].
  by eapply lookup_lt_Some.
Qed.

Lemma target_of_app fuel h ext l :
  l < length h -> target_of fuel (h ++ ext) l = target_of fuel h l.
Proof.
  revert l. induction fuel as [|fuel IH]; intros l Hl; [done|].
  rewrite !target_of_S, lookup_app_l by done.
  destruct (h !! l) as [[o|t th]|]; try done.
  case_decide; [|done]. apply IH. lia.
Qed.

Lemma resolve_app h ext l :
  l < length h -> resolve (h ++ ext) l = resolve h l.
Proof.
  intros Hl. unfold resolve. rewrite target_of_app by done.
  destruct (target_of (S l) h l) as [b|] eqn:E; [|done].
  apply target_of_Some in E as [Hle _].
  rewrite lookup_app_l by lia. done.
Qed.

Lemma find_property_app fuel h ext l name :
  l < length h -> find_property fuel (h ++ ext) l name = find_property fuel h l name.
Proof.
  revert l. induction fuel as [|fuel IH]; intros l Hl; [done|].
  rewrite !find_property_S, lookup_app_l by done.
  destruct (h !! l) as [[o|t th]|]; try done.
  - destruct (o_props o !! name); [done|].
    destruct (o_proto o) as [p|]; [|done].
    case_decide; [|done]. apply IH. lia.
  - case_decide; [|done]. apply IH. lia.
Qed.

Lemma lookup_property_app h ext l name :
  l < length h ->
  lookup_property (h ++ ext) (VObject l) name = lookup_property h (VObject l) name.
Proof. intros Hl. by apply find_property_app. Qed.

(** ** Replacing the record of one object *)

Section Update.

Context (h : list cell) (b : nat) (o o' : object).
Hypothesis Hb : h !! b = Some (CObject o).

Lemma update_valid : b < length h.
Proof using Hb. by eapply lookup_lt_Some. Qed.

Lemma proxy_targets_update : proxy_targets (<[b := CObject o']> h) = proxy_targets h.
Proof using Hb.
  rewrite insert_take_drop by apply update_valid.
  rewrite <- (take_drop_middle h b (CObject o)) at 3 by done.
  unfold proxy_targets. by rewrite !omap_app.
Qed.

Lemma target_of_update fuel l :
  target_of fuel (<[b := CObject o']> h) l = target_of fuel h l.
Proof using Hb.
  revert l. induction fuel as [|fuel IH]; intros l; [done|].
  rewrite !target_of_S. destruct (decide (b = l)) as [<-|Hne].
  - by rewrite list_lookup_insert_eq, Hb by apply update_valid.
  - rewrite list_lookup_insert_ne by done.
    destruct (h !! l) as [[?|t th]|]; try done.
    case_decide; [|done]. apply IH.
Qed.

Lemma resolve_update l :
  resolve (<[b := CObject o']> h) l =
    match resolve h l with
    | Some (b', ob) => Some (b', if decide (b' = b) then o' else ob)
    | None => None
    end.
Proof using Hb.
  unfold resolve. rewrite target_of_update.
  destruct (target_of (S l) h l) as [b'|]; [|done].
  destruct (decide (b' = b)) as [->|Hne].
  - rewrite list_lookup_insert_eq, Hb by apply update_valid. by rewrite decide_True.
  - rewrite list_lookup_insert_ne by done.
    destruct (h !! b') as [[?|]|]; try done. by rewrite decide_False.
Qed.

Lemma find_property_update_other fuel l name :
  o_proto o' = o_proto o ->
  o_props o' !! name = o_props o !! name ->
  find_property fuel (<[b := CObject o']> h) l name = find_property fuel h l name.
Proof using Hb.
  intros Hproto Hname. revert l. induction fuel as [|fuel IH]; intros l; [done|].
  rewrite !find_property_S. destruct (decide (b = l)) as [<-|Hne].
  - rewrite list_lookup_insert_eq, Hb by apply update_valid.
    rewrite Hname, Hproto. destruct (o_props o !! name); [done|].
    destruct (o_proto o); [|done]. case_decide; [|done]. apply IH.
  - rewrite list_lookup_insert_ne by done.
    destruct (h !! l) as [[ol|t th]|]; try done.
    + destruct (o_props ol !! name); [done|].
      destruct (o_proto ol); [|done]. case_decide; [|done]. apply IH.
    + case_decide; [|done]. apply IH.
Qed.

Lemma find_property_update_base fuel l name p :
  target_of fuel h l = Some b ->
  o_props o' !! name = Some p ->
  find_property fuel (<[b := CObject o']> h) l name = Some p.
Proof using Hb.
  intros Ht Hname. revert l Ht. induction fuel as [|fuel IH]; intros l Ht; [done|].
  rewrite target_of_S in Ht. rewrite find_property_S.
  destruct (decide (b = l)) as [<-|Hne].
  - by rewrite list_lookup_insert_eq, Hname by apply update_valid.
  - rewrite list_lookup_insert_ne by done.
    destruct (h !! l) as [[ol|t th]|]; try done.
    + congruence.
    + case_decide; [|done]. by apply IH.
Qed.

Lemma find_property_None_base fuel l name :
  target_of fuel h l = Some b ->
  find_property fuel h l name = None ->
  o_props o !! name = None.
Proof using Hb.
  revert l. induction fuel as [|fuel IH]; intros l Ht Hf; [done|].
  rewrite target_of_S in Ht. rewrite find_property_S in Hf.
  destruct (h !! l) as [[ol|t th]|] eqn:El; try done.
  - injection Ht as ->. rewrite Hb in El. injection El as <-.
    by destruct (o_props o !! name).
  - case_decide; [|done]. by eapply IH.
Qed.

End Update.

(** An object record that was changed on the listed property names only. *)
Definition redefines (names : list string) (o o' : object) : Prop :=
  o_proto o' = o_proto o /\
  o_extensible o' = o_extensible o /\
  o_class o' = o_class o /\
  forall name, name ∉ names -> o_props o' !! name = o_props o !! name.

(** A heap in which at most the object behind [l] was changed, on the listed
    names only. *)
Definition object_step (names : list string) (l : nat) (h h' : list cell) : Prop :=
  h' = h \/
  exists b o o',
    resolve h l = Some (b, o) /\ redefines names o o' /\ h' = <[b := CObject o']> h.

Lemma redefines_trans names o1 o2 o3 :
  redefines names o1 o2 -> redefines names o2 o3 -> redefines names o1 o3.
Proof.
  intros (P1 & E1 & C1 & N1) (P2 & E2 & C2 & N2).
  repeat split; try congruence.
  intros name Hn. by rewrite N2, N1.
Qed.

Lemma redefines_weaken names names' o o' :
  names ⊆ names' -> redefines names o o' -> redefines names' o o'.
Proof.
  intros Hsub (P & E & C & N). repeat split; try done.
  intros name Hn. apply N. intros Hin. apply Hn, Hsub, Hin.
Qed.

Lemma object_step_trans names l h1 h2 h3 :
  object_step names l h1 h2 -> object_step names l h2 h3 -> object_step names l h1 h3.
Proof.
  intros [->|(b & o & o' & Hr & Hd & ->)]; [done|].
  intros [->|(b2 & o2 & o2' & Hr2 & Hd2 & ->)].
  - right. by exists b, o, o'.
  - pose proof (resolve_Some _ _ _ _ Hr) as (Hb & _ & _).
    rewrite (resolve_update _ _ _ _ Hb), Hr, decide_True in Hr2 by done.
    injection Hr2 as <- <-.
    right. exists b, o, o2'. split; [done|]. split.
    + by eapply redefines_trans.
    + by rewrite list_insert_insert_eq.
Qed.

Lemma object_step_weaken names names' l h h' :
  names ⊆ names' -> object_step names l h h' -> object_step names' l h h'.
Proof.
  intros Hsub [->|(b & o & o' & Hr & Hd & ->)]; [by left|].
  right. exists b, o, o'. eauto using redefines_weaken.
Qed.

Lemma object_step_length names l h h' :
  object_step names l h h' -> length h' = length h.
Proof. intros [->|(b & o & o' & _ & _ & ->)]; [done|]. apply length_insert. Qed.

Lemma object_step_proxy_targets names l h h' :
  object_step names l h h' -> proxy_targets h' = proxy_targets h.
Proof.
  intros [->|(b & o & o' & Hr & _ & ->)]; [done|].
  apply resolve_Some in Hr as (Hb & _ & _). by eapply proxy_targets_update.
Qed.

Lemma object_step_lookup names l h h' v name :
  object_step names l h h' -> name ∉ names ->
  lookup_property h' v name = lookup_property h v name.
Proof.
  intros [->|(b & o & o' & Hr & (P & _ & _ & N) & ->)] Hn; [done|].
  apply resolve_Some in Hr as (Hb & _ & _).
  destruct v; try done. unfold lookup_property. eapply find_property_update_other; eauto.
Qed.

Lemma object_step_resolve names l h h' l' :
  object_step names l h h' ->
  match resolve h l', resolve h' l' with
  | Some (b, o), Some (b', o') => b' = b /\ redefines names o o'
  | None, None => True
  | _, _ => False
  end.
Proof.
  intros [->|(b & o & o' & Hr & Hd & ->)].
  - destruct (resolve h l') as [[b o]|]; [|done]. split; [done|].
    repeat split; done.
  - pose proof (resolve_Some _ _ _ _ Hr) as (Hb & _ & _).
    rewrite (resolve_update _ _ _ _ Hb).
    destruct (resolve h l') as [[b1 o1]|] eqn:E1; [|done].
    split; [done|]. case_decide as Hdec; [|repeat split; done].
    subst b1. apply resolve_Some in E1 as (Hb1 & _ & _).
    rewrite Hb in Hb1. by injection Hb1 as <-.
Qed.

Lemma object_step_object names l h h' p o :
  object_step names l h h' -> h !! p = Some (CObject o) ->
  exists o', h' !! p = Some (CObject o').
Proof.
  intros [->|(b & ob & ob' & Hr & _ & ->)] Hp; [by exists o|].
  destruct (decide (b = p)) as [->|Hne].
  - exists ob'. apply list_lookup_insert_eq. by eapply lookup_lt_Some.
  - exists o. by rewrite list_lookup_insert_ne.
Qed.

(** ** TraceListeners.asArray *)

Definition wrapped (v : value) : list value := if truthy v then [v] else [].

Lemma asArray_eq v s :
  TraceListeners.asArray v s =
    if isArray (heap s) v then (Return v, s)
    else (Return (VObject (length (heap s))),
          set_heap s (heap s ++ [CObject (array_object (wrapped v))])).
Proof.
  unfold TraceListeners.asArray, bind, gets, wrapped. simpl.
  destruct (isArray (heap s) v); [done|].
  by destruct (truthy v).
Qed.

Lemma asArray_frame v s :
  exists v' ext,
    TraceListeners.asArray v s = (Return v', set_heap s (heap s ++ ext)) /\
    proxy_targets ext = [] /\
    (isArray (heap s) v = true -> v' = v /\ ext = []).
Proof.
  rewrite asArray_eq. destruct (isArray (heap s) v).
  - exists v, []. rewrite app_nil_r. by destruct s.
  - eexists _, _. split; [done|]. split; [done|]. discriminate.
Qed.

(** ** Object.defineProperty and the private members *)

Lemma redefines_refl names o : redefines names o o.
Proof. by repeat split. Qed.

Lemma redefines_with_prop o name p : redefines [name] o (with_prop o name p).
Proof.
  split; [done|]. split; [done|]. split; [done|].
  intros n Hn. simpl. apply lookup_insert_ne. set_solver.
Qed.

Lemma define_data_property_spec o name x o' :
  define_data_property o name x = Some o' ->
  redefines [name] o o' /\
  exists c, o_props o' !! name = Some (Property x false false c) /\
            (o_props o !! name = None -> c = false).
Proof.
  unfold define_data_property.
  destruct (o_props o !! name) as [cur|] eqn:E.
  - destruct cur as [v w e c]; simpl.
    destruct c; [|destruct e; [discriminate|destruct w; [|case_bool_decide; [|discriminate]]]].
    all: intros [= <-].
    + split; [apply redefines_with_prop|].
      exists true. simpl. by rewrite lookup_insert_eq.
    + split; [apply redefines_with_prop|].
      exists false. simpl. by rewrite lookup_insert_eq.
    + split; [apply redefines_refl|]. exists false. simpl in *. subst. done.
  - destruct (o_extensible o); [|discriminate]. intros [= <-].
    split; [apply redefines_with_prop|].
    exists false. simpl. by rewrite lookup_insert_eq.
Qed.

Lemma defineProperty_step l name x s r s' :
  defineProperty (VObject l) name x s = (r, s') ->
  sequence s' = sequence s /\
  handlers s' = handlers s /\
  object_step [name] l (heap s) (heap s') /\
  (forall e, r = Throw e -> s' = s) /\
  (r = Return tt ->
   exists c, lookup_property (heap s') (VObject l) name = Some (Property x false false c) /\
             (lookup_property (heap s) (VObject l) name = None -> c = false)).
Proof.
  unfold defineProperty.
  destruct (resolve (heap s) l) as [[b o]|] eqn:Hr.
  - destruct (define_data_property o name x) as [o'|] eqn:Hd.
    + intros [= <- <-]. simpl.
      apply define_data_property_spec in Hd as (Hre & c & Hc & Hfresh).
      pose proof Hr as Hr'. unfold resolve in Hr'.
      destruct (target_of (S l) (heap s) l) as [b'|] eqn:Ht; [|discriminate].
      destruct (heap s !! b') as [[o1|]|] eqn:Hb; try discriminate.
      injection Hr' as -> ->.
      split_and!; try done.
      * right. by exists b, o, o'.
      * intros _. exists c. split.
        -- by eapply find_property_update_base.
        -- intros Hnone. apply Hfresh. by eapply find_property_None_base.
    + intros [= <- <-]. split_and!; try done. by left.
  - intros [= <- <-]. split_and!; try done. by left.
Qed.

Lemma define_if_absent_step l name x s r s' :
  define_if_absent (VObject l) (name, x) s = (r, s') ->
  sequence s' = sequence s /\
  handlers s' = handlers s /\
  object_step [name] l (heap s) (heap s') /\
  (forall e, r = Throw e -> s' = s) /\
  (is_Some (lookup_property (heap s) (VObject l) name) -> r = Return tt /\ s' = s) /\
  (r = Return tt -> lookup_property (heap s) (VObject l) name = None ->
   lookup_property (heap s') (VObject l) name = Some (Property x false false false)).
Proof.
  unfold define_if_absent, bind, has_property, gets. simpl.
  case_bool_decide as Hp; simpl.
  - intros [= <- <-]. split_and!; try done.
    + by left.
    + intros _ Hnone. rewrite Hnone in Hp. by destruct Hp.
  - intros Hd. apply defineProperty_step in Hd as (Hs & Hh & Hstep & Hthrow & Hret).
    split_and!; try done.
    intros -> Hnone. destruct (Hret eq_refl) as (c & Hc & Hfresh).
    by rewrite (Hfresh Hnone) in Hc.
Qed.

Lemma forEach_define_step l members s r s' :
  forEach members (define_if_absent (VObject l)) s = (r, s') ->
  sequence s' = sequence s /\
  handlers s' = handlers s /\
  object_step members.*1 l (heap s) (heap s') /\
  (forall name, is_Some (lookup_property (heap s) (VObject l) name) ->
     lookup_property (heap s') (VObject l) name = lookup_property (heap s) (VObject l) name) /\
  (r = Return tt -> NoDup members.*1 ->
   forall name x, (name, x) ∈ members ->
     lookup_property (heap s) (VObject l) name = None ->
     lookup_property (heap s') (VObject l) name = Some (Property x false false false)).
Proof.
  revert s. induction members as [|[n0 x0] rest IH]; intros s.
  - intros [= <- <-]. split_and!; try done.
    + by left.
    + intros _ _ name x Hin. by apply elem_of_nil in Hin.
  - cbn [forEach]. unfold bind at 1.
    destruct (define_if_absent (VObject l) (n0, x0) s) as [[[]|e] s1] eqn:H1.
    + intros Hrest.
      apply define_if_absent_step in H1 as (Hs1 & Hh1 & Hstep1 & _ & Hkeep1 & Hdef1).
      apply IH in Hrest as (Hs & Hh & Hstep & Hkeep & Hdef).
      assert (Hkept : forall name,
                 is_Some (lookup_property (heap s) (VObject l) name) ->
                 lookup_property (heap s1) (VObject l) name
                 = lookup_property (heap s) (VObject l) name).
      { intros name Hsome. destruct (decide (name = n0)) as [->|Hne].
        - destruct (Hkeep1 Hsome) as [_ ->]. done.
        - eapply object_step_lookup; [exact Hstep1|]. set_solver. }
      split; [congruence|]. split; [congruence|]. split; [|split].
      * eapply object_step_trans.
        -- eapply object_step_weaken; [|exact Hstep1]. set_solver.
        -- eapply object_step_weaken; [|exact Hstep]. set_solver.
      * intros name Hsome. rewrite Hkeep; [by apply Hkept|].
        rewrite Hkept by done. done.
      * intros -> Hnd name x Hin Hnone.
        rewrite fmap_cons in Hnd. apply NoDup_cons in Hnd as [Hn0 Hnd].
        apply elem_of_cons in Hin as [[= -> ->]|Hin].
        -- rewrite Hkeep; [by apply Hdef1|].
           rewrite (Hdef1 eq_refl Hnone). by eexists.
        -- assert (name <> n0).
           { intros ->. apply Hn0. apply list_elem_of_fmap. by exists (n0, x). }
           apply (Hdef eq_refl Hnd name x Hin).
           rewrite <- Hnone. eapply object_step_lookup; [exact Hstep1|]. set_solver.
    + intros [= <- <-].
      apply define_if_absent_step in H1 as (Hs1 & Hh1 & Hstep1 & Hthrow & _ & _).
      rewrite (Hthrow e eq_refl). split_and!; try done. by left.
Qed.

(** ** Listener lists and the handler store *)

Lemma isArray_valid h l : isArray h (VObject l) = true -> l < length h.
Proof.
  unfold isArray. destruct (resolve h l) as [[b o]|] eqn:E; [|discriminate].
  intros _. by apply resolve_Some in E as (_ & _ & ?).
Qed.

Lemma asArray_isArray v s v' s' :
  TraceListeners.asArray v s = (Return v', s') -> isArray (heap s') v' = true.
Proof.
  rewrite asArray_eq. destruct (isArray (heap s) v) eqn:E.
  - by intros [= <- <-].
  - intros [= <- <-]. simpl. unfold isArray, resolve.
    rewrite target_of_S, lookup_app_r, Nat.sub_diag by done. simpl.
    by rewrite lookup_app_r, Nat.sub_diag by done.
Qed.

Lemma isArray_object_step names l h h' v :
  object_step names l h h' -> isArray h' v = isArray h v.
Proof.
  intros Hstep. destruct v; try done. unfold isArray.
  pose proof (object_step_resolve _ _ _ _ l0 Hstep) as Hres.
  destruct (resolve h l0) as [[b o]|], (resolve h' l0) as [[b' o']|]; try done.
  destruct Hres as (_ & _ & _ & Hc & _).
  destruct o, o'; simpl in *. by subst.
Qed.

Lemma addTraceListener_eq h arr s :
  isArray (heap s) arr = true ->
  TraceHandler.addTraceListener h arr s =
    (Return VUndefined,
     set_handlers s (TraceHandler.append_listeners (handlers s) h (elements_of (heap s) arr))).
Proof.
  intros Harr. unfold TraceHandler.addTraceListener, bind.
  by rewrite asArray_eq, Harr.
Qed.

Lemma append_listeners_length hs h ls :
  length (TraceHandler.append_listeners hs h ls) = length hs.
Proof.
  unfold TraceHandler.append_listeners. destruct (hs !! h); [|done].
  apply length_insert.
Qed.

Lemma append_listeners_lookup hs h ls i :
  TraceHandler.append_listeners hs h ls !! i =
    match hs !! i with
    | Some th =>
        Some (if decide (h = i)
              then mkTraceHandler (th_path th) (th_traceListeners th ++ ls) (th_target th)
              else th)
    | None => None
    end.
Proof.
  unfold TraceHandler.append_listeners. destruct (hs !! h) as [th|] eqn:E.
  - destruct (decide (h = i)) as [<-|Hne].
    + rewrite list_lookup_insert_eq, E by (by eapply lookup_lt_Some). done.
    + rewrite list_lookup_insert_ne by done. by destruct (hs !! i).
  - destruct (hs !! i) eqn:Ei; [|done].
    case_decide; [congruence|done].
Qed.

Lemma append_listeners_targets hs h ls :
  th_target <$> TraceHandler.append_listeners hs h ls = th_target <$> hs.
Proof.
  apply list_eq. intros i. rewrite !list_lookup_fmap, append_listeners_lookup.
  destruct (hs !! i); [|done]. simpl. by case_decide.
Qed.

Lemma append_listeners_paths hs h ls :
  th_path <$> TraceHandler.append_listeners hs h ls = th_path <$> hs.
Proof.
  apply list_eq. intros i. rewrite !list_lookup_fmap, append_listeners_lookup.
  destruct (hs !! i); [|done]. simpl. by case_decide.
Qed.

(** ** Proxies.trace *)

Section WithHost.

Variable host_call : nat -> value -> list value -> M value.

Abbreviation trace := (Proxies.trace host_call).
Abbreviation register_listeners := (Proxies.register_listeners host_call).

Definition private_members (id : Z) (traceListeners : value) (path : string)
  : list (string * value) :=
  [ ("__traceIdentifier", VNumber id);
    ("__traceListeners", traceListeners);
    ("__path", VString path) ].

(** The state in which the private members are defined: the handler has been
    constructed and the counter incremented. *)
Definition prepared (path : string) (l : nat) (arr : value) (s : state) : state :=
  State (sequence s + 1) (heap s)
        (handlers s ++ [mkTraceHandler path (elements_of (heap s) arr) (VObject l)]).

Lemma trace_VObject path l ls :
  trace path (VObject l) ls =
    (let* traceListeners := TraceListeners.asArray ls in
     let* frozen := isFrozen (VObject l) in
     if frozen then ret (VObject l)
     else
       let* traceHandler := TraceHandler.construct path traceListeners (VObject l) in
       let* id := next_sequence in
       let* _ := forEach (private_members id traceListeners path)
                         (define_if_absent (VObject l)) in
       let* _ := register_listeners (VObject l) traceListeners traceHandler in
       new_Proxy (VObject l) traceHandler).
Proof. reflexivity. Qed.

(** The stages of a call of [trace] on an object reference. *)
Lemma trace_inv path l ls s r s' :
  trace path (VObject l) ls s = (r, s') ->
  exists arr ext,
    let sA := set_heap s (heap s ++ ext) in
    TraceListeners.asArray ls s = (Return arr, sA) /\
    proxy_targets ext = [] /\
    ((isFrozen (VObject l) sA = (Return true, sA) /\ r = Return (VObject l) /\ s' = sA) \/
     (isFrozen (VObject l) sA = (Return false, sA) /\
      exists r1 s1,
        forEach (private_members (sequence s) arr path) (define_if_absent (VObject l))
                (prepared path l arr sA) = (r1, s1) /\
        ((exists e, r1 = Throw e /\ r = Throw e /\ s' = s1) \/
         (r1 = Return tt /\
          exists r2 s2,
            register_listeners (VObject l) arr (length (handlers s)) s1 = (r2, s2) /\
            ((exists e, r2 = Throw e /\ r = Throw e /\ s' = s2) \/
             (r2 = Return tt /\ r = Return (VObject (length (heap s2))) /\
              s' = set_heap s2 (heap s2 ++ [CProxy l (length (handlers s))]))))))).
Proof.
  intros Htr. destruct (asArray_frame ls s) as (arr & ext & Has & Hext & _).
  exists arr, ext. split; [done|]. split; [done|].
  rewrite trace_VObject in Htr.
  unfold bind at 1 in Htr. rewrite Has in Htr.
  unfold bind at 1 in Htr. unfold isFrozen at 1, gets at 1 in Htr.
  unfold isFrozen, gets.
  set (sA := set_heap s (heap s ++ ext)) in *.
  destruct (match resolve (heap sA) l with
            | Some (_, o) => frozen_object o
            | None => false
            end) eqn:Hfr.
  - left. injection Htr as <- <-. done.
  - right. split; [done|].
    unfold bind at 1 in Htr. unfold TraceHandler.construct at 1 in Htr.
    unfold bind at 1 in Htr. unfold next_sequence at 1 in Htr.
    unfold bind at 1 in Htr.
    change (State (sequence (set_handlers sA _) + 1) _ _)
      with (prepared path l arr sA) in Htr.
    change (sequence (set_handlers sA _)) with (sequence s) in Htr.
    destruct (forEach _ _ (prepared path l arr sA)) as [[[]|e] s1] eqn:H1.
    + exists (Return tt), s1. split; [done|]. right. split; [done|].
      unfold bind at 1 in Htr. change (length (handlers sA)) with (length (handlers s)) in Htr.
      destruct (register_listeners _ _ _ s1) as [[[]|e] s2] eqn:H2.
      * exists (Return tt), s2. split; [done|]. right. split; [done|].
        unfold new_Proxy, bind, alloc, ret in Htr. by injection Htr as <- <-.
      * exists (Throw e), s2. split; [done|]. left. exists e. by injection Htr as <- <-.
    + exists (Throw e), s1. split; [done|]. left. exists e. by injection Htr as <- <-.
Qed.

Lemma register_listeners_eq l arr th s :
  register_listeners (VObject l) arr th s =
    if truthy (property_value (heap s) (VObject l) "addTraceListener")
    then match call host_call (property_value (heap s) (VObject l) "addTraceListener")
                     (VObject l) [arr] s with
         | (Return _, s') => (Return tt, s')
         | (Throw e, s') => (Throw e, s')
         end
    else defineProperty (VObject l) "addTraceListener"
           (VFunction (FAddTraceListener th)) s.
Proof.
  unfold Proxies.register_listeners, bind, get, gets. simpl.
  destruct (truthy _); [|done].
  by destruct (call _ _ _ _ _) as [[?|?] ?].
Qed.

Lemma register_listeners_step l arr th s r s' :
  registered_by_host (heap s) (VObject l) = false ->
  isArray (heap s) arr = true ->
  register_listeners (VObject l) arr th s = (r, s') ->
  sequence s' = sequence s /\
  object_step ["addTraceListener"] l (heap s) (heap s') /\
  length (handlers s') = length (handlers s) /\
  th_target <$> handlers s' = th_target <$> handlers s /\
  th_path <$> handlers s' = th_path <$> handlers s /\
  (truthy (property_value (heap s) (VObject l) "addTraceListener") = true ->
   heap s' = heap s) /\
  (forall h,
     property_value (heap s) (VObject l) "addTraceListener" = VFunction (FAddTraceListener h) ->
     r = Return tt /\ heap s' = heap s /\
     handlers s' = TraceHandler.append_listeners (handlers s) h (elements_of (heap s) arr)) /\
  (truthy (property_value (heap s) (VObject l) "addTraceListener") = false ->
   handlers s' = handlers s /\
   (r = Return tt ->
    exists c, lookup_property (heap s') (VObject l) "addTraceListener"
              = Some (Property (VFunction (FAddTraceListener th)) false false c))).
Proof.
  intros Hhost Harr. rewrite register_listeners_eq.
  unfold registered_by_host in Hhost.
  remember (property_value (heap s) (VObject l) "addTraceListener") as reg eqn:Hreg.
  destruct (truthy reg) eqn:Htruthy.
  - destruct reg as [| |bv|n|str|sy|[n|h]|lo]; try discriminate.
    all: cbn [call hd].
    all: try (unfold throw; intros [= <- <-]; split_and!; try done; by left).
    rewrite (addTraceListener_eq _ _ _ Harr). intros [= <- <-]. simpl.
    split_and!; try done.
    + by left.
    + apply append_listeners_length.
    + apply append_listeners_targets.
    + apply append_listeners_paths.
    + by intros ? [= <-].
  - intros Hd. apply defineProperty_step in Hd as (Hs & Hh & Hstep & _ & Hret).
    split_and!; try done.
    + by rewrite Hh.
    + by rewrite Hh.
    + by rewrite Hh.
    + intros h ->. discriminate.
    + intros _. split; [done|]. intros Hr. destruct (Hret Hr) as (c & Hc & _). by exists c.
Qed.

Lemma elements_of_app h ext v :
  isArray h v = true -> elements_of (h ++ ext) v = elements_of h v.
Proof.
  intros Harr. destruct v; try done.
  unfold elements_of. by rewrite resolve_app by by apply isArray_valid.
Qed.

Lemma isFrozen_app l s ext :
  l < length (heap s) ->
  fst (isFrozen (VObject l) (set_heap s (heap s ++ ext))) = fst (isFrozen (VObject l) s).
Proof. intros Hl. unfold isFrozen, gets. simpl. by rewrite resolve_app. Qed.

Definition new_handler (path : string) (l : nat) (arr : value) (h : list cell)
  : trace_handler :=
  mkTraceHandler path (elements_of h arr) (VObject l).

(** What a call of [trace] does to an object that is not frozen and whose
    [addTraceListener], if any, is not a function of the host. *)
Lemma trace_effect path l ls s r s' :
  l < length (heap s) ->
  isFrozen (VObject l) s = (Return false, s) ->
  registered_by_host (heap s) (VObject l) = false ->
  trace path (VObject l) ls s = (r, s') ->
  exists arr ext h1,
    let registered := property_value (heap s) (VObject l) "addTraceListener" in
    let fresh := new_handler path l arr (heap s ++ ext) in
    TraceListeners.asArray ls s = (Return arr, set_heap s (heap s ++ ext)) /\
    proxy_targets ext = [] /\
    sequence s' = (sequence s + 1)%Z /\
    object_step (hidden_names ++ ["addTraceListener"]) l (heap s ++ ext) h1 /\
    heap s' = h1 ++ (if r is Return _ then [CProxy l (length (handlers s))] else []) /\
    (forall w, r = Return w -> w = VObject (length h1)) /\
    length (handlers s') = S (length (handlers s)) /\
    th_target <$> handlers s' = (th_target <$> handlers s) ++ [VObject l] /\
    th_path <$> handlers s' = (th_path <$> handlers s) ++ [path] /\
    (forall name, name <> "addTraceListener" ->
       is_Some (lookup_property (heap s) (VObject l) name) ->
       lookup_property (heap s') (VObject l) name = lookup_property (heap s) (VObject l) name) /\
    (forall w name x, r = Return w ->
       (name, x) ∈ private_members (sequence s) arr path ->
       lookup_property (heap s) (VObject l) name = None ->
       lookup_property (heap s') (VObject l) name = Some (Property x false false false)) /\
    (truthy registered = true ->
       lookup_property (heap s') (VObject l) "addTraceListener"
       = lookup_property (heap s) (VObject l) "addTraceListener") /\
    (forall w h, r = Return w -> registered = VFunction (FAddTraceListener h) ->
       handlers s' = TraceHandler.append_listeners (handlers s ++ [fresh]) h
                       (elements_of (heap s') arr)) /\
    (forall w, r = Return w -> truthy registered = false ->
       handlers s' = handlers s ++ [fresh] /\
       exists c, lookup_property (heap s') (VObject l) "addTraceListener"
                 = Some (Property (VFunction (FAddTraceListener (length (handlers s))))
                                  false false c)).
Proof.
  intros Hvalid Hnf Hhost Htr.
  apply trace_inv in Htr as (arr & ext & Has & Hext & Hcases).
  exists arr, ext. cbv zeta in Has, Hcases.
  set (sA := set_heap s (heap s ++ ext)) in *.
  assert (HarrA : isArray (heap sA) arr = true) by (by eapply asArray_isArray).
  destruct Hcases as [(Hfr & _ & _)|(_ & r1 & s1 & H1 & Hcases)].
  { pose proof (isFrozen_app l s ext Hvalid) as E. fold sA in E.
    rewrite Hfr, Hnf in E. discriminate. }
  apply forEach_define_step in H1 as (Hs1 & Hh1 & Hstep1 & Hkeep1 & Hdef1).
  change (sequence (prepared path l arr sA)) with (sequence s + 1)%Z in Hs1.
  change (handlers (prepared path l arr sA))
    with (handlers s ++ [new_handler path l arr (heap s ++ ext)]) in Hh1.
  change (heap (prepared path l arr sA)) with (heap s ++ ext) in *.
  change ((private_members (sequence s) arr path).*1) with hidden_names in *.
  assert (HlA : forall name,
             lookup_property (heap s ++ ext) (VObject l) name
             = lookup_property (heap s) (VObject l) name)
    by (intros; by apply lookup_property_app).
  assert (Hatl1 : lookup_property (heap s1) (VObject l) "addTraceListener"
                  = lookup_property (heap s) (VObject l) "addTraceListener").
  { rewrite <- HlA. eapply object_step_lookup; [exact Hstep1|]. set_solver. }
  assert (Hnd : NoDup hidden_names).
  { unfold hidden_names. repeat (apply NoDup_cons; split; [set_solver|]). apply NoDup_nil_2. }
  destruct Hcases as [(e & -> & -> & ->)|(-> & r2 & s2 & H2 & Hcases)].
  - exists (heap s1). rewrite app_nil_r. split_and!; try done; try congruence.
    + eapply object_step_weaken; [|exact Hstep1]. set_solver.
    + by rewrite Hh1, length_app, Nat.add_comm.
    + by rewrite Hh1, fmap_app.
    + by rewrite Hh1, fmap_app.
    + intros name _ Hsome. rewrite Hkeep1; rewrite HlA; done.
  - assert (Hhost1 : registered_by_host (heap s1) (VObject l) = false).
    { unfold registered_by_host, property_value in *. by rewrite Hatl1. }
    assert (Harr1 : isArray (heap s1) arr = true).
    { erewrite isArray_object_step; [exact HarrA|exact Hstep1]. }
    apply (register_listeners_step _ _ _ _ _ _ Hhost1 Harr1) in H2
      as (Hs2 & Hstep2 & Hlen2 & Htg2 & Hpa2 & Hheap2 & Hreg2 & Hfalsy2).
    assert (Hpv1 : property_value (heap s1) (VObject l) "addTraceListener"
                   = property_value (heap s) (VObject l) "addTraceListener").
    { unfold property_value. by rewrite Hatl1. }
    rewrite Hpv1 in Hheap2, Hreg2, Hfalsy2.
    assert (Hl2 : l < length (heap s2)).
    { erewrite object_step_length by exact Hstep2.
      erewrite object_step_length by exact Hstep1.
      rewrite length_app. lia. }
    assert (Hkeep2 : forall name, name <> "addTraceListener" ->
               is_Some (lookup_property (heap s) (VObject l) name) ->
               lookup_property (heap s2) (VObject l) name
               = lookup_property (heap s) (VObject l) name).
    { intros name Hne Hsome.
      erewrite object_step_lookup; [|exact Hstep2|set_solver].
      rewrite Hkeep1; rewrite HlA; done. }
    assert (Hdef2 : forall name x,
               (name, x) ∈ private_members (sequence s) arr path ->
               lookup_property (heap s) (VObject l) name = None ->
               lookup_property (heap s2) (VObject l) name
               = Some (Property x false false false)).
    { intros name x Hin Hnone.
      erewrite object_step_lookup; [|exact Hstep2|].
      - apply (Hdef1 eq_refl Hnd name x Hin). by rewrite HlA.
      - unfold private_members in Hin. set_solver. }
    assert (Htruthy2 : truthy (property_value (heap s) (VObject l) "addTraceListener") = true ->
               lookup_property (heap s2) (VObject l) "addTraceListener"
               = lookup_property (heap s) (VObject l) "addTraceListener").
    { intros Htruthy. by rewrite (Hheap2 Htruthy). }
    destruct Hcases as [(e & -> & -> & ->)|(-> & -> & ->)].
    + exists (heap s2). rewrite app_nil_r. split_and!; try done; try congruence.
      * eapply object_step_trans.
        -- eapply object_step_weaken; [|exact Hstep1]. set_solver.
        -- eapply object_step_weaken; [|exact Hstep2]. set_solver.
      * by rewrite Hlen2, Hh1, length_app, Nat.add_comm.
      * by rewrite Htg2, Hh1, fmap_app.
      * by rewrite Hpa2, Hh1, fmap_app.
    + exists (heap s2). cbn [heap set_heap handlers sequence].
      assert (Hl' : forall name,
                 lookup_property (heap s2 ++ [CProxy l (length (handlers s))]) (VObject l) name
                 = lookup_property (heap s2) (VObject l) name)
        by (intros; by apply lookup_property_app).
      split_and!; try done; try congruence.
      * eapply object_step_trans.
        -- eapply object_step_weaken; [|exact Hstep1]. set_solver.
        -- eapply object_step_weaken; [|exact Hstep2]. set_solver.
      * by rewrite Hlen2, Hh1, length_app, Nat.add_comm.
      * by rewrite Htg2, Hh1, fmap_app.
      * by rewrite Hpa2, Hh1, fmap_app.
      * intros name Hne Hsome. rewrite Hl'. by apply Hkeep2.
      * intros w name x _ Hin Hnone. rewrite Hl'. by apply Hdef2.
      * intros Htruthy. rewrite Hl'. by apply Htruthy2.
      * intros w h _ Hreg. destruct (Hreg2 h Hreg) as (_ & Hheap & ->).
        rewrite Hh1. f_equal.
        rewrite elements_of_app by (by rewrite Hheap).
        by rewrite Hheap.
      * intros w _ Hfalsy. destruct (Hfalsy2 Hfalsy) as (-> & Hc).
        split; [done|]. destruct (Hc eq_refl) as (c & Hc'). exists c. by rewrite Hl'.
Qed.


Lemma isFrozen_total v s : exists b, isFrozen v s = (Return b, s).
Proof. unfold isFrozen, gets. by eexists. Qed.

Lemma isFrozen_after_asArray l ls s arr sA :
  TraceListeners.asArray ls s = (Return arr, sA) ->
  isFrozen (VObject l) s = (Return false, s) ->
  isFrozen (VObject l) sA = (Return false, sA).
Proof.
  rewrite asArray_eq. destruct (isArray (heap s) ls); intros [= <- <-]; [done|].
  unfold isFrozen, gets. simpl. intros [= Hnf].
  destruct (decide (l < length (heap s))) as [Hl|Hl].
  - rewrite resolve_app by done. by rewrite Hnf.
  - unfold resolve. rewrite target_of_S.
    destruct (decide (l = length (heap s))) as [->|Hne].
    + rewrite lookup_app_r, Nat.sub_diag by lia. cbn [lookup list_lookup].
      rewrite lookup_app_r, Nat.sub_diag by lia. done.
    + rewrite lookup_ge_None_2; [done|]. rewrite length_app. simpl. lia.
Qed.

(** A reference into the heap to an object that is not frozen and whose
    [addTraceListener], if it has one, is not a function of the host. *)
Definition traceable (s : state) (l : nat) : Prop :=
  l < length (heap s) /\
  isFrozen (VObject l) s = (Return false, s) /\
  registered_by_host (heap s) (VObject l) = false.

(** The identifier given to an object that had none. *)
Lemma trace_assigns_sequence path l ls s w s' :
  traceable s l ->
  lookup_property (heap s) (VObject l) "__traceIdentifier" = None ->
  trace path (VObject l) ls s = (Return w, s') ->
  lookup_property (heap s') (VObject l) "__traceIdentifier"
  = Some (Property (VNumber (sequence s)) false false false).
Proof.
  intros (Hl & Hnf & Hhost) Hfresh Htr.
  destruct (trace_effect _ _ _ _ _ _ Hl Hnf Hhost Htr)
    as (arr & ext & h1 & _ & _ & _ & _ & _ & _ & _ & _ & _ & _ & Hdef & _).
  apply (Hdef w _ _ eq_refl); [|done]. unfold private_members. set_solver.
Qed.

Lemma trace_frozen_effect (path : string) (l : loc) (traceListeners : value)
    (s : state) :
  isFrozen (VObject l) s = (Return true, s) ->
  exists s',
    trace path (VObject l) traceListeners s = (Return (VObject l), s') /\
    sequence s' = sequence s /\
    handlers s' = handlers s /\
    (exists ext, heap s' = heap s ++ ext) /\
    (forall name,
       lookup_property (heap s') (VObject l) name
       = lookup_property (heap s) (VObject l) name) /\
    (isArray (heap s) traceListeners = true -> s' = s) /\
    isFrozen (VObject l) s' = (Return true, s').
Proof.
  intros Hfrozen. unfold isFrozen, gets in Hfrozen.
  destruct (resolve (heap s) l) as [[b o]|] eqn:Hres; [|discriminate].
  injection Hfrozen as Hfrozen.
  pose proof (resolve_Some _ _ _ _ Hres) as (_ & _ & Hl).
  destruct (asArray_frame traceListeners s) as (v' & ext & Has & _ & Hid).
  assert (Hfr' : isFrozen (VObject l) (set_heap s (heap s ++ ext))
                 = (Return true, set_heap s (heap s ++ ext))).
  { unfold isFrozen, gets. cbn [heap set_heap]. rewrite resolve_app by done.
    by rewrite Hres, Hfrozen. }
  exists (set_heap s (heap s ++ ext)).
  split_and!; try done.
  - rewrite trace_VObject. unfold bind. rewrite Has, Hfr'. done.
  - by exists ext.
  - intros name. by apply lookup_property_app.
  - intros Harr. destruct (Hid Harr) as [_ ->]. rewrite app_nil_r. by destruct s.
Qed.

(** C4.  A frozen object handed to [Proxies.trace] comes back as the same
    reference and no error is raised; the counter and the handlers are
    untouched, every cell of the heap is as it was (the only possible change
    is the list that [asArray] allocates when the listeners were not a list
    yet), so none of [__traceIdentifier], [__traceListeners], [__path] and
    [addTraceListener], nor any other property, has been added to it. *)
Theorem trace_frozen_returns_value (path : string) (l : loc) (traceListeners : value)
    (s : state) :
  isFrozen (VObject l) s = (Return true, s) ->
  exists s',
    trace path (VObject l) traceListeners s = (Return (VObject l), s') /\
    sequence s' = sequence s /\
    handlers s' = handlers s /\
    (exists ext, heap s' = heap s ++ ext) /\
    (forall name,
       lookup_property (heap s') (VObject l) name
       = lookup_property (heap s) (VObject l) name) /\
    (isArray (heap s) traceListeners = true -> s' = s).
Proof.
  intros Hfrozen.
  destruct (trace_frozen_effect path l traceListeners s Hfrozen)
    as (s' & Htr & Hseq & Hh & Hheap & Hlook & Hsame & _).
  by exists s'.
Qed.

(** ** Handlers and proxies per object *)

Lemma handlers_of_targets s v :
  length (handlers_of s v) = length (filter (fun t => t = v) (th_target <$> handlers s)).
Proof.
  unfold handlers_of. induction (handlers s) as [|th hs IH]; [done|].
  rewrite fmap_cons, !filter_cons. repeat case_decide; simpl; try done; by rewrite IH.
Qed.

(** C2 (as amended).  Every call of [trace] on an object that is not frozen
    constructs one more trace handler for it and, when it returns, one more
    proxy around it, which is the value returned.  What the test of
    [value.addTraceListener] preserves is the registration method: the one a
    handler installed stays the object's [addTraceListener]. *)
Theorem trace_adds_handler_and_proxy (path : string) (l : nat) (traceListeners : value)
    (s : state) (r : result value) (s' : state) :
  traceable s l ->
  trace path (VObject l) traceListeners s = (r, s') ->
  length (handlers_of s' (VObject l)) = S (length (handlers_of s (VObject l))) /\
  (forall w, r = Return w ->
     length (proxies_of s' l) = S (length (proxies_of s l)) /\
     exists p, w = VObject p /\ heap s' !! p = Some (CProxy l (length (handlers s)))) /\
  (forall h,
     property_value (heap s) (VObject l) "addTraceListener" = VFunction (FAddTraceListener h) ->
     property_value (heap s') (VObject l) "addTraceListener" = VFunction (FAddTraceListener h)).
Proof.
  intros (Hl & Hnf & Hhost) Htr.
  destruct (trace_effect _ _ _ _ _ _ Hl Hnf Hhost Htr)
    as (arr & ext & h1 & _ & Hext & _ & Hstep & Hheap & Hw & _ & Htg & _ & _ & _ & Hreg & _).
  split_and!.
  - rewrite !handlers_of_targets, Htg, filter_app, length_app.
    rewrite filter_cons, decide_True by done. simpl. lia.
  - intros w ->. split.
    + unfold proxies_of. rewrite Hheap. unfold proxy_targets at 1.
      rewrite omap_app. fold (proxy_targets h1).
      rewrite (object_step_proxy_targets _ _ _ _ Hstep).
      unfold proxy_targets at 1. rewrite omap_app. fold (proxy_targets (heap s)).
      fold (proxy_targets ext). rewrite Hext, app_nil_r. simpl.
      rewrite filter_app, length_app, filter_cons, decide_True by done. simpl. lia.
    + exists (length h1). split; [by apply Hw|].
      rewrite Hheap. by rewrite lookup_app_r, Nat.sub_diag by lia.
  - intros h Hh. cbv zeta in Hreg.
    assert (Ht : truthy (property_value (heap s) (VObject l) "addTraceListener") = true)
      by (by rewrite Hh).
    specialize (Hreg Ht). unfold property_value in *. by rewrite Hreg.
Qed.

(** ** The hidden fields *)

Lemma hidden_name_member id arr path name :
  name ∈ hidden_names -> exists x, (name, x) ∈ private_members id arr path.
Proof.
  unfold hidden_names, private_members. intros Hin.
  rewrite !elem_of_cons, elem_of_nil in Hin.
  destruct Hin as [->|[->|[->|[]]]]; eexists.
  - apply elem_of_cons. by left.
  - apply elem_of_cons. right. apply elem_of_cons. by left.
  - apply elem_of_cons. right. apply elem_of_cons. right. apply elem_of_cons. by left.
Qed.

Lemma hidden_name_not_registration name :
  name ∈ hidden_names -> name <> "addTraceListener".
Proof. unfold hidden_names. intros Hin ->. set_solver. Qed.

Lemma not_host_after_trace path l ls s w s' :
  traceable s l ->
  trace path (VObject l) ls s = (Return w, s') ->
  registered_by_host (heap s') (VObject l) = false.
Proof.
  intros (Hl & Hnf & Hhost) Htr.
  destruct (trace_effect _ _ _ _ _ _ Hl Hnf Hhost Htr)
    as (arr & ext & h1 & _ & _ & _ & _ & _ & _ & _ & _ & _ & _ & _ & Htruthy & _ & Hfalsy).
  cbv zeta in Htruthy, Hfalsy.
  destruct (truthy (property_value (heap s) (VObject l) "addTraceListener")) eqn:E.
  - unfold registered_by_host, property_value in *. by rewrite Htruthy.
  - destruct (Hfalsy w eq_refl eq_refl) as (_ & c & Hc).
    unfold registered_by_host, property_value. by rewrite Hc.
Qed.

Lemma valid_after_trace path l ls s r s' :
  traceable s l ->
  trace path (VObject l) ls s = (r, s') ->
  l < length (heap s').
Proof.
  intros (Hl & Hnf & Hhost) Htr.
  destruct (trace_effect _ _ _ _ _ _ Hl Hnf Hhost Htr)
    as (arr & ext & h1 & _ & _ & _ & Hstep & -> & _).
  apply object_step_length in Hstep. rewrite !length_app in *. lia.
Qed.

(** C3.  [trace] defines each of [__traceIdentifier], [__traceListeners] and
    [__path] exactly when the value does not have it yet: a member that is
    absent is defined, hidden and read-only, with the value of this call, and
    a member that is present is left as it is.  Hence, once a value has been
    traced, tracing it again under any path and with any listeners leaves the
    three members as the first call left them. *)
Theorem retrace_keeps_hidden_fields (path : string) (l : nat) (traceListeners : value)
    (s0 : state) (w : value) (s1 : state) :
  l < length (heap s0) ->
  registered_by_host (heap s0) (VObject l) = false ->
  trace path (VObject l) traceListeners s0 = (Return w, s1) ->
  (isFrozen (VObject l) s0 = (Return false, s0) ->
   exists arr,
     fst (TraceListeners.asArray traceListeners s0) = Return arr /\
     forall name x,
       (name, x) ∈ private_members (sequence s0) arr path ->
       (lookup_property (heap s0) (VObject l) name = None ->
        lookup_property (heap s1) (VObject l) name = Some (Property x false false false)) /\
       (is_Some (lookup_property (heap s0) (VObject l) name) ->
        lookup_property (heap s1) (VObject l) name
        = lookup_property (heap s0) (VObject l) name)) /\
  (forall path' traceListeners' name,
     name ∈ hidden_names ->
     lookup_property (heap (snd (trace path' (VObject l) traceListeners' s1))) (VObject l) name
     = lookup_property (heap s1) (VObject l) name).
Proof.
  intros Hl Hhost Htr.
  destruct (isFrozen_total (VObject l) s0) as [[] Hfr].
  - destruct (trace_frozen_effect path l traceListeners s0 Hfr)
      as (s1' & Htr' & _ & _ & _ & _ & _ & Hfr1).
    rewrite Htr in Htr'. injection Htr' as -> <-.
    split; [intros Hnf; rewrite Hfr in Hnf; discriminate|].
    intros path' ls' name _.
    destruct (trace_frozen_effect path' l ls' s1 Hfr1) as (s2 & -> & _ & _ & _ & Hlook & _).
    apply Hlook.
  - destruct (trace_effect _ _ _ _ _ _ Hl Hfr Hhost Htr)
      as (arr & ext & h1 & Has & _ & _ & _ & _ & _ & _ & _ & _ & Hkeep & Hdef & _).
    assert (Hmember : forall name x, (name, x) ∈ private_members (sequence s0) arr path ->
                        name <> "addTraceListener").
    { unfold private_members. intros name x Hin ->. set_solver. }
    split.
    + intros _. exists arr. rewrite Has. split; [done|].
      intros name x Hin. split.
      * by apply (Hdef w).
      * apply Hkeep. by eapply Hmember.
    + intros path' ls' name Hin.
      assert (Hsome : is_Some (lookup_property (heap s1) (VObject l) name)).
      { destruct (hidden_name_member (sequence s0) arr path name Hin) as [x Hx].
        destruct (lookup_property (heap s0) (VObject l) name) as [p|] eqn:E.
        - rewrite Hkeep; [by rewrite E|by eapply Hmember|by rewrite E].
        - by rewrite (Hdef w name x eq_refl Hx E). }
      destruct (isFrozen_total (VObject l) s1) as [[] Hfr1].
      * destruct (trace_frozen_effect path' l ls' s1 Hfr1)
          as (s2 & -> & _ & _ & _ & Hlook & _).
        apply Hlook.
      * assert (Ht0 : traceable s0 l) by done.
        assert (Ht1 : traceable s1 l).
        { split_and!; [by eapply valid_after_trace|done|by eapply not_host_after_trace]. }
        destruct Ht1 as (Hl1 & _ & Hhost1).
        destruct (trace path' (VObject l) ls' s1) as [r2 s2] eqn:Htr2.
        destruct (trace_effect _ _ _ _ _ _ Hl1 Hfr1 Hhost1 Htr2)
          as (arr2 & ext2 & h2 & _ & _ & _ & _ & _ & _ & _ & _ & _ & Hkeep2 & _).
        apply Hkeep2; [|done]. by apply hidden_name_not_registration.
Qed.


(** C9.  A call of [trace] on a frozen object returns it and leaves the
    counter where it was; an object without identifier that is traced next
    receives the value the counter had before the frozen call, the same
    identifier that tracing it in place of the frozen object gives. *)
Theorem trace_frozen_keeps_sequence (path : string) (f : nat) (traceListeners : value)
    (s : state) :
  isFrozen (VObject f) s = (Return true, s) ->
  exists s',
    trace path (VObject f) traceListeners s = (Return (VObject f), s') /\
    sequence s' = sequence s /\
    forall path2 l traceListeners2 w s2,
      traceable s' l ->
      lookup_property (heap s') (VObject l) "__traceIdentifier" = None ->
      trace path2 (VObject l) traceListeners2 s' = (Return w, s2) ->
      lookup_property (heap s2) (VObject l) "__traceIdentifier"
      = Some (Property (VNumber (sequence s)) false false false) /\
      forall w0 s0,
        traceable s l ->
        lookup_property (heap s) (VObject l) "__traceIdentifier" = None ->
        trace path2 (VObject l) traceListeners2 s = (Return w0, s0) ->
        lookup_property (heap s0) (VObject l) "__traceIdentifier"
        = lookup_property (heap s2) (VObject l) "__traceIdentifier".
Proof.
  intros Hfrozen.
  destruct (trace_frozen_effect path f traceListeners s Hfrozen)
    as (s' & Htr & Hseq & _).
  exists s'. split; [done|]. split; [done|].
  intros path2 l ls2 w s2 Ht Hfresh Htr2.
  pose proof (trace_assigns_sequence _ _ _ _ _ _ Ht Hfresh Htr2) as Hid.
  rewrite Hseq in Hid. split; [done|].
  intros w0 s0 Ht0 Hfresh0 Htr0.
  rewrite Hid. by eapply trace_assigns_sequence.
Qed.

(** ** The sequence counter *)

(** A series of calls of [trace], each given as (path, value, listeners). *)
Definition trace_all (calls : list (string * value * value)) (s : state) : state :=
  foldl (fun s c => snd (trace c.1.1 c.1.2 c.2 s)) s calls.

Section Monotone.

(** The host reaches [sequence] only through [Proxies.trace]: its functions
    never lower it. *)
Hypothesis host_call_sequence :
  forall n this args s, (sequence s <= sequence (snd (host_call n this args s)))%Z.

Lemma register_listeners_sequence l arr th s :
  (sequence s <= sequence (snd (register_listeners (VObject l) arr th s)))%Z.
Proof.
  rewrite register_listeners_eq.
  destruct (truthy _).
  - destruct (property_value (heap s) (VObject l) "addTraceListener")
      as [| |bv|n|str|sy|[n|h]|lo]; cbn [call hd]; try (simpl; lia).
    + specialize (host_call_sequence n (VObject l) [arr] s).
      by destruct (host_call n (VObject l) [arr] s) as [[?|?] ?].
    + unfold TraceHandler.addTraceListener, bind.
      destruct (asArray_frame arr s) as (v' & ext & -> & _). simpl. lia.
  - destruct (defineProperty _ _ _ s) as [r s'] eqn:E.
    apply defineProperty_step in E as (Hs & _). simpl. lia.
Qed.

Lemma trace_sequence_stages path l ls s :
  (sequence s <= sequence (snd (trace path (VObject l) ls s)))%Z /\
  (isFrozen (VObject l) s = (Return false, s) ->
   (sequence s + 1 <= sequence (snd (trace path (VObject l) ls s)))%Z).
Proof.
  destruct (trace path (VObject l) ls s) as [r s'] eqn:Htr.
  apply trace_inv in Htr as (arr & ext & Has & _ & Hcases). cbv zeta in Has, Hcases.
  destruct Hcases as [(Hfr & _ & ->)|(_ & r1 & s1 & H1 & Hcases)].
  - simpl. split; [lia|]. intros Hnf.
    pose proof (isFrozen_after_asArray _ _ _ _ _ Has Hnf) as HnfA.
    rewrite Hfr in HnfA. discriminate.
  - apply forEach_define_step in H1 as (Hs1 & _).
    change (sequence (prepared _ _ _ _)) with (sequence s + 1)%Z in Hs1.
    assert (sequence s + 1 <= sequence s')%Z; [|simpl; split; [lia|done]].
    destruct Hcases as [(e & _ & _ & ->)|(_ & r2 & s2 & H2 & Hcases)]; [lia|].
    pose proof (register_listeners_sequence l arr (length (handlers s)) s1) as Hle.
    rewrite H2 in Hle. simpl in Hle.
    destruct Hcases as [(e & _ & _ & ->)|(_ & _ & ->)]; simpl; lia.
Qed.

Lemma trace_sequence_le path v ls s :
  (sequence s <= sequence (snd (trace path v ls s)))%Z.
Proof.
  destruct v; try (simpl; lia).
  - unfold Proxies.trace, bind. simpl.
    destruct (asArray_frame ls s) as (v' & ext & -> & _). simpl. lia.
  - apply trace_sequence_stages.
Qed.

Lemma trace_all_sequence_le calls s :
  (sequence s <= sequence (trace_all calls s))%Z.
Proof.
  revert s. induction calls as [|c calls IH]; intros s; simpl; [lia|].
  etrans; [|apply IH]. apply trace_sequence_le.
Qed.

(** C7.  The counter never goes down; every call of [trace] on an object
    that is not frozen raises it, by exactly one when the value's registration
    method is not host code, whether or not the identifier is used; so the
    identifiers that two calls give to two objects are different, however many
    calls of [trace] lie between them. *)
Theorem sequence_increases_identifiers_unique :
  (forall path v traceListeners s,
     (sequence s <= sequence (snd (trace path v traceListeners s)))%Z) /\
  (forall path l traceListeners s,
     isFrozen (VObject l) s = (Return false, s) ->
     (sequence s < sequence (snd (trace path (VObject l) traceListeners s)))%Z) /\
  (forall path l traceListeners s,
     traceable s l ->
     sequence (snd (trace path (VObject l) traceListeners s)) = (sequence s + 1)%Z) /\
  (forall s1 path1 a listeners1 w1 s1' calls path2 b listeners2 w2 s2',
     traceable s1 a ->
     lookup_property (heap s1) (VObject a) "__traceIdentifier" = None ->
     trace path1 (VObject a) listeners1 s1 = (Return w1, s1') ->
     traceable (trace_all calls s1') b ->
     lookup_property (heap (trace_all calls s1')) (VObject b) "__traceIdentifier" = None ->
     trace path2 (VObject b) listeners2 (trace_all calls s1') = (Return w2, s2') ->
     exists i j,
       lookup_property (heap s1') (VObject a) "__traceIdentifier"
       = Some (Property (VNumber i) false false false) /\
       lookup_property (heap s2') (VObject b) "__traceIdentifier"
       = Some (Property (VNumber j) false false false) /\
       (i < j)%Z).
Proof.
  split_and!.
  - apply trace_sequence_le.
  - intros path l ls s Hnf.
    pose proof (trace_sequence_stages path l ls s) as [_ Hle]. specialize (Hle Hnf). lia.
  - intros path l ls s (Hl & Hnf & Hhost).
    destruct (trace path (VObject l) ls s) as [r s'] eqn:Htr.
    by destruct (trace_effect _ _ _ _ _ _ Hl Hnf Hhost Htr)
      as (arr & ext & h1 & _ & _ & Hseq & _).
  - intros s1 path1 a ls1 w1 s1' calls path2 b ls2 w2 s2' Ha Hfa Htr1 Hb Hfb Htr2.
    exists (sequence s1), (sequence (trace_all calls s1')).
    split; [by eapply trace_assigns_sequence|].
    split; [by eapply trace_assigns_sequence|].
    pose proof (trace_all_sequence_le calls s1') as Hle.
    destruct Ha as (Hl & Hnf & Hhost).
    destruct (trace_effect _ _ _ _ _ _ Hl Hnf Hhost Htr1)
      as (arr & ext & h1 & _ & _ & Hseq & _).
    lia.
Qed.

End Monotone.

End WithHost.

(** ** Proxies.create *)

Section WithCollaborators.

Variable host_call : nat -> value -> list value -> M value.
Variable TraceHandler_set : nat -> loc -> string -> value -> M unit.
Variable Paths_create : string -> string -> string.
Variable ObjectPaths_recurse : value -> state -> list ObjectPathEntry.

Abbreviation create :=
  (Proxies.create host_call TraceHandler_set Paths_create ObjectPaths_recurse).
Abbreviation create_entry :=
  (Proxies.create_entry host_call TraceHandler_set Paths_create).
Abbreviation create_entries :=
  (Proxies.create_entries host_call TraceHandler_set Paths_create).
Abbreviation trace := (Proxies.trace host_call).

(** Lines 40-44 of [create]: the listeners as a list. *)
Definition normalise_listeners (traceListeners : value) : M value :=
  let* traceListeners :=
    if negb (truthy traceListeners) then new_array [] else ret traceListeners in
  TraceListeners.asArray traceListeners.

(** The path that [create] traces a record under, read off the options as
    the caller gave them. *)
Definition prefixed_path (opts : option Objects.Options) (entry : ObjectPathEntry) : string :=
  match opts with
  | Some (Objects.mkOptions (Some prefix)) =>
      if String.eqb prefix "" then e_path entry else Paths_create prefix (e_path entry)
  | _ => e_path entry
  end.

Lemma create_eq target traceListeners opts s :
  create (VObject target) traceListeners opts s =
    match normalise_listeners traceListeners s with
    | (Return arr, sN) =>
        create_entries (Objects.defaults opts (Objects.mkOptions (Some ""))) arr VNull
          (ObjectPaths_recurse (VObject target) sN) sN
    | (Throw e, sN) => (Throw e, sN)
    end.
Proof.
  unfold Proxies.create, normalise_listeners. cbn [typeof].
  change (negb (String.eqb "object" "object")) with false. cbv iota.
  unfold bind, gets.
  destruct ((if negb (truthy traceListeners) then new_array [] else ret traceListeners) s)
    as [[l1|e] sa]; [|done].
  by destruct (TraceListeners.asArray l1 sa) as [[arr|e] sN].
Qed.

Lemma create_entries_keep_root opts arr root entries s r s' :
  Forall (fun e => e_parent e <> None) entries ->
  create_entries opts arr root entries s = (Return r, s') ->
  r = root.
Proof.
  intros Hall. revert s. induction Hall as [|e rest He Hrest IH]; intros s.
  - by intros [= <- <-].
  - cbn [Proxies.create_entries]. unfold bind at 1.
    destruct (create_entry opts arr root e s) as [[root'|err] s1] eqn:E1; [|discriminate].
    intros Hcont.
    assert (root' = root) as ->; [|by eapply IH].
    unfold Proxies.create_entry, bind in E1.
    destruct (trace _ _ _ s) as [[proxy|err] s0]; [|discriminate].
    destruct (e_parent e) as [parent|]; [|done].
    destruct (assign TraceHandler_set parent (e_parentKey e) proxy s0) as [[[]|err] s2];
      [|discriminate].
    by injection E1 as <- _.
Qed.

Lemma entry_path_defaults opts entry :
  entry_path Paths_create (Objects.defaults opts (Objects.mkOptions (Some ""))) entry
  = prefixed_path opts entry.
Proof.
  unfold entry_path, prefixed_path, Objects.defaults.
  destruct opts as [[[prefix|]]|]; cbn [Objects.pathPrefix truthy]; try done.
  by destruct (String.eqb prefix "").
Qed.

(** C1 (as amended).  A value whose [typeof] is not "object" (undefined, a
    boolean, a number, a string, a symbol, a function) is rejected by both
    [Proxies.create] and [Proxies.trace] with their "only objects" error, and
    the state in which the error is raised is the state of the call: nothing
    has been rewritten or defined.  [null], whose [typeof] is "object", is not
    rejected: [trace] returns it, with no handler built and the counter
    untouched. *)
Theorem not_typeof_object_rejected (v : value) (path : string) (traceListeners : value)
    (opts : option Objects.Options) (s : state) :
  (typeof v <> "object" ->
   create v traceListeners opts s
     = (Throw (Error ("Only works on objects: " ++ typeof v)), s) /\
   Proxies.trace host_call path v traceListeners s
     = (Throw (Error "We can only trace object types."), s)) /\
  (exists s',
     Proxies.trace host_call path VNull traceListeners s = (Return VNull, s') /\
     sequence s' = sequence s /\ handlers s' = handlers s).
Proof.
  split.
  - intros Hty. unfold Proxies.create, Proxies.trace.
    destruct (String.eqb (typeof v) "object") eqn:E.
    + apply String.eqb_eq in E. contradiction.
    + simpl. done.
  - destruct (asArray_frame traceListeners s) as (arr & ext & Has & _).
    exists (set_heap s (heap s ++ ext)).
    split; [|done].
    transitivity (match TraceListeners.asArray traceListeners s with
                  | (Return _, s') => (Return VNull, s')
                  | (Throw e, s') => (Throw e, s')
                  end); [reflexivity|].
    by rewrite Has.
Qed.

End WithCollaborators.

(** ** The theorems on concrete heaps *)

Import Scenario.

Lemma one_object_traceable : traceable one_object 1.
Proof. split; [simpl; lia|]. split; reflexivity. Defined.

(** C1 as stated fails for [null], which is not an object but whose [typeof]
    is "object": [trace] returns it instead of raising. *)
Lemma trace_null_returns_null :
  is_object VNull = false /\
  Proxies.trace quiet_host "p" VNull (VObject 0) one_object = (Return VNull, one_object).
Proof. split; reflexivity. Qed.

Lemma not_typeof_object_rejected_witness :
  typeof (VNumber 7) <> "object" /\
  (Proxies.create quiet_host no_set_trap dotted walk_parent_child
     (VNumber 7) (VObject 0) None one_object
   = (Throw (Error ("Only works on objects: " ++ typeof (VNumber 7))), one_object) /\
   Proxies.trace quiet_host "p" (VNumber 7) (VObject 0) one_object
   = (Throw (Error "We can only trace object types."), one_object)).
Proof.
  split; [discriminate|].
  apply (proj1 (not_typeof_object_rejected quiet_host no_set_trap dotted walk_parent_child
                  (VNumber 7) "p" (VObject 0) None one_object)).
  discriminate.
Defined.

(** C2 as stated fails: tracing the same object twice leaves two trace
    handlers and two proxies for it. *)
Lemma second_trace_second_handler_and_proxy :
  let s1 := snd (Proxies.trace quiet_host "p" (VObject 1) (VObject 0) one_object) in
  let s2 := snd (Proxies.trace quiet_host "q" (VObject 1) (VObject 0) s1) in
  length (handlers_of s2 (VObject 1)) = 2 /\ length (proxies_of s2 1) = 2.
Proof. vm_compute. split; reflexivity. Qed.

Lemma trace_adds_handler_and_proxy_witness :
  let run := Proxies.trace quiet_host "p" (VObject 1) (VObject 0) one_object in
  traceable one_object 1 /\
  run = (run.1, run.2) /\
  length (handlers_of run.2 (VObject 1)) = S (length (handlers_of one_object (VObject 1))) /\
  (forall w, run.1 = Return w ->
     length (proxies_of run.2 1) = S (length (proxies_of one_object 1)) /\
     exists p, w = VObject p /\
               heap run.2 !! p = Some (CProxy 1 (length (handlers one_object)))) /\
  (forall h,
     property_value (heap one_object) (VObject 1) "addTraceListener"
     = VFunction (FAddTraceListener h) ->
     property_value (heap run.2) (VObject 1) "addTraceListener"
     = VFunction (FAddTraceListener h)).
Proof.
  intros run. split; [exact one_object_traceable|]. split; [apply surjective_pairing|].
  apply (trace_adds_handler_and_proxy quiet_host "p" 1 (VObject 0) one_object
           run.1 run.2 one_object_traceable).
  apply surjective_pairing.
Defined.

Lemma retrace_keeps_hidden_fields_witness :
  let s1 := snd (Proxies.trace quiet_host "p" (VObject 1) (VObject 0) one_object) in
  1 < length (heap one_object) /\
  registered_by_host (heap one_object) (VObject 1) = false /\
  Proxies.trace quiet_host "p" (VObject 1) (VObject 0) one_object = (Return (VObject 2), s1) /\
  forall path' traceListeners' name,
    name ∈ hidden_names ->
    lookup_property
      (heap (snd (Proxies.trace quiet_host path' (VObject 1) traceListeners' s1)))
      (VObject 1) name
    = lookup_property (heap s1) (VObject 1) name.
Proof.
  intros s1.
  assert (Hl : 1 < length (heap one_object)) by (simpl; lia).
  assert (Hhost : registered_by_host (heap one_object) (VObject 1) = false) by reflexivity.
  assert (Htr : Proxies.trace quiet_host "p" (VObject 1) (VObject 0) one_object
                = (Return (VObject 2), s1)) by (vm_compute; reflexivity).
  split; [exact Hl|]. split; [exact Hhost|]. split; [exact Htr|].
  exact (proj2 (retrace_keeps_hidden_fields quiet_host "p" 1 (VObject 0) one_object
                  (VObject 2) s1 Hl Hhost Htr)).
Defined.

Lemma trace_frozen_returns_value_witness :
  isFrozen (VObject 2) frozen_parent = (Return true, frozen_parent) /\
  exists s',
    Proxies.trace quiet_host "p" (VObject 2) (VObject 0) frozen_parent
      = (Return (VObject 2), s') /\
    sequence s' = sequence frozen_parent /\
    handlers s' = handlers frozen_parent /\
    (exists ext, heap s' = heap frozen_parent ++ ext) /\
    (forall name,
       lookup_property (heap s') (VObject 2) name
       = lookup_property (heap frozen_parent) (VObject 2) name) /\
    (isArray (heap frozen_parent) (VObject 0) = true -> s' = frozen_parent).
Proof.
  assert (Hfr : isFrozen (VObject 2) frozen_parent = (Return true, frozen_parent))
    by reflexivity.
  split; [exact Hfr|].
  exact (trace_frozen_returns_value quiet_host "p" 2 (VObject 0) frozen_parent Hfr).
Defined.


Lemma trace_frozen_keeps_sequence_witness :
  isFrozen (VObject 2) frozen_parent = (Return true, frozen_parent) /\
  exists s',
    Proxies.trace quiet_host "p" (VObject 2) (VObject 0) frozen_parent
      = (Return (VObject 2), s') /\
    sequence s' = sequence frozen_parent.
Proof.
  assert (Hfr : isFrozen (VObject 2) frozen_parent = (Return true, frozen_parent))
    by reflexivity.
  split; [exact Hfr|].
  destruct (trace_frozen_keeps_sequence quiet_host "p" 2 (VObject 0) frozen_parent Hfr)
    as (s' & Htr & Hseq & _).
  exists s'. split; [exact Htr | exact Hseq].
Defined.

Lemma quiet_host_sequence n this args s :
  (sequence s <= sequence (snd (quiet_host n this args s)))%Z.
Proof. simpl. lia. Defined.

Lemma sequence_increases_identifiers_unique_witness :
  (forall n this args s, (sequence s <= sequence (snd (quiet_host n this args s)))%Z) /\
  let s1' := snd (Proxies.trace quiet_host "p" (VObject 1) (VObject 0) two_objects) in
  let s2 := trace_all quiet_host [("q", VObject 1, VObject 0)] s1' in
  let s2' := snd (Proxies.trace quiet_host "r" (VObject 2) (VObject 0) s2) in
  exists i j,
    lookup_property (heap s1') (VObject 1) "__traceIdentifier"
    = Some (Property (VNumber i) false false false) /\
    lookup_property (heap s2') (VObject 2) "__traceIdentifier"
    = Some (Property (VNumber j) false false false) /\
    (i < j)%Z.
Proof.
  split; [exact quiet_host_sequence|]. intros s1' s2 s2'.
  destruct (sequence_increases_identifiers_unique quiet_host quiet_host_sequence)
    as (_ & _ & _ & Hunique).
  apply (Hunique two_objects "p" 1 (VObject 0) (VObject 3) s1'
           [("q", VObject 1, VObject 0)] "r" 2 (VObject 0) (VObject 5) s2').
  - split; [simpl; lia|]. split; reflexivity.
  - reflexivity.
  - vm_compute. reflexivity.
  - split; [vm_compute; lia|]. split; vm_compute; reflexivity.
  - vm_compute. reflexivity.
  - vm_compute. reflexivity.
Defined.

End ProxiesSpec.

(** * The rest of PagingBrowser.js: paging down *)

From Stdlib Require Import Lqa.

Module PagingScroll.
Import PagingBrowser.





End PagingScroll.

Module PagingScrollSpec.
Import PagingBrowser PagingScroll PagingBrowserSpec.







(** ** The theorems on a concrete page *)




End PagingScrollSpec.

(** * The arithmetic of doubles

    A JavaScript number is a double: every arithmetic operation returns the
    exact result rounded to the nearest number with a significand of 53 bits,
    a tie going to the even significand.  [Binary64.round] is that rounding
    on the rationals.  The exponent range of doubles (overflow beyond
    [2^1024], subnormal numbers below [2^-1022]), the infinities and NaN are
    not represented: the geometry of a page stays far from them, and a
    division by zero is excluded where it matters. *)

From Stdlib Require Import Qpower.

Module Binary64.
#[local] Open Scope Z_scope.

(** [floor (log2 a)] for a positive [a]. *)
Definition floor_log2 (a : Q) : Z :=
  let k0 := (Z.log2 (Qnum a) - Z.log2 (Zpos (Qden a)))%Z in
  if Qle_bool (2 ^ k0) a then k0 else (k0 - 1)%Z.

(** The nearest integer, a tie going to the even one. *)
Definition nearest_even (m : Q) : Z :=
  let f := Qfloor m in
  match (m - inject_Z f ?= 1 # 2)%Q with
  | Lt => f
  | Gt => (f + 1)%Z
  | Eq => if Z.even f then f else (f + 1)%Z
  end.

(** The double nearest to a positive [a]: [a] is scaled to a significand
    between [2^52] and [2^53], which is rounded to an integer. *)
Definition round_pos (a : Q) : Q :=
  let e := (floor_log2 a - 52)%Z in
  (inject_Z (nearest_even (a / 2 ^ e)) * 2 ^ e)%Q.

Definition round (q : Q) : Q :=
  match (q ?= 0)%Q with
  | Eq => 0%Q
  | Gt => round_pos q
  | Lt => (- round_pos (- q))%Q
  end.

End Binary64.

Module Binary64Spec.
Import Binary64.
#[local] Open Scope Z_scope.






















End Binary64Spec.

(** * PagingBrowser.js in the arithmetic of the code *)

Module PagingBrowserDoubles.
Import PagingBrowser.

Section Rounded.

(** The rounding of an exact result to the number type: [Binary64.round] for
    the doubles of the code; the identity gives the exact arithmetic of
    [PagingBrowser.perc]. *)
Variable fl : Q -> Q.

(** [Math.ceil(Math.min(100 * (Math.ceil(n) / d), 100))]: the division and
    the multiplication round; [Math.ceil] and [Math.min] are exact. *)
Definition perc (n d : Q) : Q :=
  inject_Z (Qceiling (Qmin (fl (inject_Z 100 * fl (inject_Z (Qceiling n) / d)))
                           (inject_Z 100))).

Definition visualScrollPercentage (state : option PagingState) : option Dimensions :=
  match state with
  | None => None
  | Some state =>
      Some (mkDimensions
        (perc (fl (x (scrollPosition state) + width (viewportBox state)))
              (width (scrollBox state)))
        (perc (fl (y (scrollPosition state) + height (viewportBox state)))
              (height (scrollBox state))))
  end.

Definition fullyPaginated (state : option PagingState) : option bool :=
  match state with
  | None => None
  | Some _ =>
      match visualScrollPercentage state with
      | Some visualScrollPercentage =>
          Some (Qle_bool (inject_Z 100) (height visualScrollPercentage))
      | None => None
      end
  end.

End Rounded.

End PagingBrowserDoubles.

Module PagingBrowserDoublesSpec.
Import PagingBrowser PagingBrowserSpec.

(** Without rounding the definitions are those of the exact model. *)
Lemma exact_perc (n d : Q) :
  PagingBrowser.perc n d = PagingBrowserDoubles.perc (fun q => q) n d.
Proof. reflexivity. Qed.

Lemma exact_fullyPaginated (state : option PagingState) :
  PagingBrowser.fullyPaginated state
  = PagingBrowserDoubles.fullyPaginated (fun q => q) state.
Proof. reflexivity. Qed.

Section Rounded.

(** What the bounds below use of the rounding: it is monotone, it leaves 1 and
    100 as they are, and [100 * 0.99] does not exceed 99. *)
Variable fl : Q -> Q.
Hypothesis fl_monotone : forall p q : Q, (p <= q)%Q -> (fl p <= fl q)%Q.
Hypothesis fl_1 : (fl 1 == 1)%Q.
Hypothesis fl_100 : (fl (inject_Z 100) == inject_Z 100)%Q.
Hypothesis fl_99 : (fl (inject_Z 100 * fl (99 # 100)) <= inject_Z 99)%Q.

Abbreviation perc := (PagingBrowserDoubles.perc fl).
Abbreviation fullyPaginated := (PagingBrowserDoubles.fullyPaginated fl).





End Rounded.


(** Where the rounding of the code shows: [100 * (7 / 100)] is just above 7
    in doubles, and [perc] rounds it up to 8. *)
Remark perc_in_doubles :
  (PagingBrowserDoubles.perc Binary64.round 7 (inject_Z 100) == inject_Z 8)%Q /\
  (PagingBrowserDoubles.perc Binary64.round (inject_Z 560) (inject_Z 1000) == inject_Z 57)%Q /\
  (PagingBrowser.perc 7 (inject_Z 100) == 7)%Q.
Proof. vm_compute. split_and!; reflexivity. Qed.



End PagingBrowserDoublesSpec.

(** * Further properties of Proxies.trace and Proxies.create *)

Module ProxiesFrame.
Import Proxies ProxiesSpec.

#[local] Arguments target_of : simpl never.
#[local] Arguments find_property : simpl never.

(** The property names that [trace] defines: the private members and the
    registration method. *)
Definition traced_names : list string := hidden_names ++ ["addTraceListener"].

(** ** Cells of the heap *)

Lemma object_step_cells names l h h' b o :
  object_step names l h h' -> resolve h l = Some (b, o) ->
  (forall i, i <> b -> h' !! i = h !! i) /\
  exists o', h' !! b = Some (CObject o') /\ redefines names o o'.
Proof.
  intros Hstep Hr. pose proof (resolve_Some _ _ _ _ Hr) as (Hb & _ & _).
  destruct Hstep as [->|(b' & o1 & o' & Hr' & Hd & ->)].
  - split; [done|]. exists o. split; [done|apply redefines_refl].
  - rewrite Hr in Hr'. injection Hr' as <- <-. split.
    + intros i Hi. by rewrite list_lookup_insert_ne.
    + exists o'. split; [|done]. apply list_lookup_insert_eq. by eapply lookup_lt_Some.
Qed.

Lemma resolve_target h l b o :
  resolve h l = Some (b, o) -> target_of (S l) h l = Some b.
Proof.
  unfold resolve. destruct (target_of (S l) h l) as [b'|]; [|discriminate].
  destruct (h !! b') as [[o'|]|]; try discriminate. by intros [= <- _].
Qed.

Lemma lookup_None_own h l b o name :
  resolve h l = Some (b, o) ->
  lookup_property h (VObject l) name = None ->
  o_props o !! name = None.
Proof.
  intros Hr Hnone. pose proof (resolve_Some _ _ _ _ Hr) as (Hb & _ & _).
  eapply find_property_None_base; [exact Hb|by eapply resolve_target|exact Hnone].
Qed.

Lemma frozen_not_writable o name cur :
  frozen_object o = true -> o_props o !! name = Some cur -> p_writable cur = false.
Proof.
  unfold frozen_object. intros Hfr Hcur.
  apply andb_true_iff in Hfr as [_ Hall]. apply bool_decide_eq_true in Hall.
  specialize (Hall name cur Hcur). unfold frozen_property in Hall.
  apply andb_true_iff in Hall as [Hw _]. by destruct (p_writable cur).
Qed.

(** ** The private members on objects that cannot or need not take them *)

Lemma defineProperty_non_extensible l b o name x s :
  resolve (heap s) l = Some (b, o) ->
  o_extensible o = false ->
  lookup_property (heap s) (VObject l) name = None ->
  defineProperty (VObject l) name x s
  = (Throw (TypeError ("Cannot define property " ++ name)), s).
Proof.
  intros Hr Hext Hnone. unfold defineProperty. rewrite Hr.
  unfold define_data_property. by rewrite (lookup_None_own _ _ _ _ _ Hr Hnone), Hext.
Qed.

Lemma define_if_absent_eq l name x s :
  define_if_absent (VObject l) (name, x) s =
    if bool_decide (is_Some (lookup_property (heap s) (VObject l) name))
    then (Return tt, s)
    else defineProperty (VObject l) name x s.
Proof.
  unfold define_if_absent, bind, has_property, gets. simpl.
  by case_bool_decide.
Qed.

Lemma forEach_define_non_extensible l b o members s :
  resolve (heap s) l = Some (b, o) ->
  o_extensible o = false ->
  (exists name, name ∈ members.*1 /\ lookup_property (heap s) (VObject l) name = None) ->
  exists msg,
    forEach members (define_if_absent (VObject l)) s = (Throw (TypeError msg), s).
Proof.
  intros Hr Hext. induction members as [|[n0 x0] rest IH]; intros (name & Hin & Hnone).
  - by apply elem_of_nil in Hin.
  - cbn [forEach]. unfold bind at 1. rewrite define_if_absent_eq.
    case_bool_decide as Hp.
    + apply IH. exists name. split; [|done].
      rewrite fmap_cons in Hin. apply elem_of_cons in Hin as [->|Hin]; [|done].
      cbn [fst] in Hnone. rewrite Hnone in Hp. by destruct Hp.
    + assert (Hn0 : lookup_property (heap s) (VObject l) n0 = None).
      { destruct (lookup_property (heap s) (VObject l) n0) eqn:E; [|done].
        destruct Hp. by eexists. }
      rewrite (defineProperty_non_extensible _ _ _ _ _ _ Hr Hext Hn0). by eexists.
Qed.

Lemma define_if_absent_extensible l b o name x s :
  resolve (heap s) l = Some (b, o) ->
  o_extensible o = true ->
  exists s', define_if_absent (VObject l) (name, x) s = (Return tt, s').
Proof.
  intros Hr Hext. rewrite define_if_absent_eq. case_bool_decide as Hp; [by eexists|].
  assert (Hnone : lookup_property (heap s) (VObject l) name = None).
  { destruct (lookup_property (heap s) (VObject l) name) eqn:E; [|done].
    destruct Hp. by eexists. }
  unfold defineProperty. rewrite Hr. unfold define_data_property.
  rewrite (lookup_None_own _ _ _ _ _ Hr Hnone), Hext. by eexists.
Qed.

Lemma forEach_define_extensible l members : forall b o s,
  resolve (heap s) l = Some (b, o) ->
  o_extensible o = true ->
  exists s', forEach members (define_if_absent (VObject l)) s = (Return tt, s').
Proof.
  induction members as [|[n0 x0] rest IH]; intros b o s Hr Hext; [by eexists|].
  cbn [forEach]. unfold bind at 1.
  destruct (define_if_absent_extensible l b o n0 x0 s Hr Hext) as [s1 H1].
  rewrite H1.
  apply define_if_absent_step in H1 as (_ & _ & Hstep & _).
  pose proof (object_step_resolve _ _ _ _ l Hstep) as Hres. rewrite Hr in Hres.
  destruct (resolve (heap s1) l) as [[b1 o1]|] eqn:Hr1; [|done].
  destruct Hres as (_ & _ & Hext1 & _).
  apply (IH b1 o1 s1 Hr1). congruence.
Qed.

Section WithHost.

Variable host_call : nat -> value -> list value -> M value.

Abbreviation trace := (Proxies.trace host_call).
Abbreviation register_listeners := (Proxies.register_listeners host_call).

(** A cell is as it was after [trace], unless it is the record of the traced
    object and that object is not frozen. *)
Lemma trace_cells path l ls s r s' i c :
  l < length (heap s) ->
  registered_by_host (heap s) (VObject l) = false ->
  trace path (VObject l) ls s = (r, s') ->
  heap s !! i = Some c ->
  (forall o, resolve (heap s) l = Some (i, o) -> frozen_object o = true) ->
  heap s' !! i = Some c.
Proof.
  intros Hl Hhost Htr Hc Hbase.
  assert (Hi : i < length (heap s)) by (by eapply lookup_lt_Some).
  destruct (isFrozen_total (VObject l) s) as [[] Hfr].
  - destruct (trace_frozen_effect host_call path l ls s Hfr)
      as (s1 & Htr' & _ & _ & (ext & Hheap) & _).
    rewrite Htr in Htr'. injection Htr' as _ <-.
    by rewrite Hheap, lookup_app_l.
  - destruct (trace_effect _ _ _ _ _ _ _ Hl Hfr Hhost Htr)
      as (arr & ext & h1 & _ & _ & _ & Hstep & -> & _).
    pose proof (object_step_length _ _ _ _ Hstep) as Hlen. rewrite length_app in Hlen.
    rewrite lookup_app_l by lia.
    destruct Hstep as [->|(b & o & o' & Hr & _ & ->)].
    + by rewrite lookup_app_l.
    + rewrite resolve_app in Hr by done.
      destruct (decide (b = i)) as [->|Hne].
      * specialize (Hbase o Hr). unfold isFrozen, gets in Hfr. rewrite Hr in Hfr.
        congruence.
      * rewrite list_lookup_insert_ne by done. by rewrite lookup_app_l.
Qed.

(** X7.  On an object that has no registration method yet (its
    [addTraceListener] is absent or falsy, so that no registration method is
    called), [trace] rewrites nothing but the record of the traced object,
    and of that record only the properties [__traceIdentifier],
    [__traceListeners], [__path] and [addTraceListener]: every other cell of
    the heap, the prototype link, the extensibility and the class of the
    object, and every other property of any object are as they were. *)
Theorem trace_changes_only_traced_names (path : string) (l : nat) (traceListeners : value)
    (s : state) (r : result value) (s' : state) (b : nat) (o : object) :
  resolve (heap s) l = Some (b, o) ->
  truthy (property_value (heap s) (VObject l) "addTraceListener") = false ->
  trace path (VObject l) traceListeners s = (r, s') ->
  (forall i, i < length (heap s) -> i <> b -> heap s' !! i = heap s !! i) /\
  (exists o',
     heap s' !! b = Some (CObject o') /\
     o_proto o' = o_proto o /\ o_extensible o' = o_extensible o /\ o_class o' = o_class o /\
     forall name, name ∉ traced_names -> o_props o' !! name = o_props o !! name) /\
  (forall l' name, l' < length (heap s) -> name ∉ traced_names ->
     lookup_property (heap s') (VObject l') name = lookup_property (heap s) (VObject l') name).
Proof.
  intros Hr Hfalsy Htr.
  assert (Hhost : registered_by_host (heap s) (VObject l) = false).
  { unfold registered_by_host.
    by destruct (property_value (heap s) (VObject l) "addTraceListener") as [| | | | | |[|]|]. }
  pose proof (resolve_Some _ _ _ _ Hr) as (Hb & Hbl & Hl).
  destruct (isFrozen_total (VObject l) s) as [[] Hfr].
  - destruct (trace_frozen_effect host_call path l traceListeners s Hfr)
      as (s1 & Htr' & _ & _ & (ext & Hheap) & _).
    rewrite Htr in Htr'. injection Htr' as _ <-. rewrite Hheap. split_and!.
    + intros i Hi _. by rewrite lookup_app_l.
    + exists o. rewrite lookup_app_l by lia. by split_and!.
    + intros l' name Hl' _. by apply lookup_property_app.
  - destruct (trace_effect _ _ _ _ _ _ _ Hl Hfr Hhost Htr)
      as (arr & ext & h1 & _ & _ & _ & Hstep & -> & _).
    pose proof (object_step_length _ _ _ _ Hstep) as Hlen. rewrite length_app in Hlen.
    assert (HrA : resolve (heap s ++ ext) l = Some (b, o)) by (by rewrite resolve_app).
    destruct (object_step_cells _ _ _ _ _ _ Hstep HrA) as (Hother & o' & Ho' & Hre).
    split_and!.
    + intros i Hi Hne. rewrite lookup_app_l by lia. rewrite Hother by done.
      by rewrite lookup_app_l.
    + exists o'. rewrite lookup_app_l by lia. destruct Hre as (? & ? & ? & ?).
      by split_and!.
    + intros l' name Hl' Hn. rewrite lookup_property_app by lia.
      rewrite (object_step_lookup _ _ _ _ (VObject l') name Hstep Hn).
      by apply lookup_property_app.
Qed.

(** X8.  A call of [trace] that returns leaves the enumerable properties of
    the object as they were: a property that is enumerable afterwards was
    there before, with the same value and attributes, and no property other
    than [addTraceListener] that the object had has been changed or
    removed. *)
Theorem trace_adds_no_enumerable_property (path : string) (l : nat) (traceListeners : value)
    (s : state) (w : value) (s' : state) :
  traceable s l ->
  trace path (VObject l) traceListeners s = (Return w, s') ->
  (forall name p,
     lookup_property (heap s') (VObject l) name = Some p ->
     p_enumerable p = true ->
     lookup_property (heap s) (VObject l) name = Some p) /\
  (forall name p,
     name <> "addTraceListener" ->
     lookup_property (heap s) (VObject l) name = Some p ->
     lookup_property (heap s') (VObject l) name = Some p).
Proof.
  intros (Hl & Hnf & Hhost) Htr.
  destruct (trace_effect _ _ _ _ _ _ _ Hl Hnf Hhost Htr)
    as (arr & ext & h1 & _ & _ & _ & Hstep & Hheap & _ & _ & _ & _ & Hkeep & Hdef
        & Htruthy & _ & Hfalsy).
  cbv zeta in Htruthy, Hfalsy. split.
  - intros name p Hp Hen.
    destruct (decide (name = "addTraceListener")) as [->|Hne].
    + destruct (truthy (property_value (heap s) (VObject l) "addTraceListener")) eqn:E.
      * by rewrite <- Htruthy.
      * destruct (Hfalsy w eq_refl eq_refl) as (_ & c & Hc).
        rewrite Hc in Hp. injection Hp as <-. discriminate.
    + destruct (lookup_property (heap s) (VObject l) name) as [q|] eqn:E.
      * rewrite Hkeep in Hp; [congruence | done | by rewrite E].
      * destruct (decide (name ∈ hidden_names)) as [Hin|Hnin].
        -- destruct (hidden_name_member (sequence s) arr path name Hin) as [x Hx].
           rewrite (Hdef w name x eq_refl Hx E) in Hp. injection Hp as <-. discriminate.
        -- pose proof (object_step_length _ _ _ _ Hstep) as Hlen.
           rewrite length_app in Hlen.
           rewrite Hheap, lookup_property_app in Hp by lia.
           rewrite (object_step_lookup _ _ _ _ (VObject l) name Hstep) in Hp.
           ++ rewrite lookup_property_app in Hp by done. congruence.
           ++ intros Hin. apply elem_of_app in Hin as [Hin|Hin]; [done|].
              apply list_elem_of_singleton in Hin. done.
  - intros name p Hne Hp. rewrite <- Hp. apply Hkeep; [done|]. by rewrite Hp.
Qed.

(** X9.  An object that is not extensible, not frozen, and lacks one of the
    private members cannot be traced: [trace] throws a TypeError.  By then
    the trace handler has been constructed and the counter incremented; no
    proxy has been made and no cell of the heap has been rewritten. *)
Theorem trace_non_extensible_throws (path : string) (l : nat) (traceListeners : value)
    (s : state) (b : nat) (o : object) (name : string) :
  resolve (heap s) l = Some (b, o) ->
  o_extensible o = false ->
  frozen_object o = false ->
  name ∈ hidden_names ->
  lookup_property (heap s) (VObject l) name = None ->
  exists msg s',
    trace path (VObject l) traceListeners s = (Throw (TypeError msg), s') /\
    sequence s' = (sequence s + 1)%Z /\
    (exists th, handlers s' = handlers s ++ [th] /\
                th_path th = path /\ th_target th = VObject l) /\
    proxy_targets (heap s') = proxy_targets (heap s) /\
    (forall i, i < length (heap s) -> heap s' !! i = heap s !! i).
Proof.
  intros Hr Hext Hnf Hin Hnone.
  pose proof (resolve_Some _ _ _ _ Hr) as (_ & _ & Hl).
  destruct (trace path (VObject l) traceListeners s) as [r s'] eqn:Htr.
  apply trace_inv in Htr as (arr & ext & Has & Hpt & Hcases). cbv zeta in Has, Hcases.
  set (sA := set_heap s (heap s ++ ext)) in *.
  assert (HrA : resolve (heap sA) l = Some (b, o)).
  { change (heap sA) with (heap s ++ ext). by rewrite resolve_app. }
  destruct Hcases as [(Hfr & _ & _)|(_ & r1 & s1 & H1 & Hcases)].
  { unfold isFrozen, gets in Hfr. rewrite HrA in Hfr. congruence. }
  destruct (forEach_define_non_extensible l b o (private_members (sequence s) arr path)
              (prepared path l arr sA)) as [msg Hthrow]; [done|done| |].
  { exists name. split; [done|].
    change (heap (prepared path l arr sA)) with (heap s ++ ext).
    by rewrite lookup_property_app. }
  rewrite Hthrow in H1. injection H1 as <- <-.
  destruct Hcases as [(e & [= <-] & -> & ->)|(Hret & _)]; [|discriminate].
  exists msg, (prepared path l arr sA). split; [done|]. split; [done|]. split_and!.
  - eexists. split; [reflexivity|]. done.
  - cbn [prepared heap set_heap sA]. unfold proxy_targets at 1. rewrite omap_app.
    fold (proxy_targets (heap s)). fold (proxy_targets ext). by rewrite Hpt, app_nil_r.
  - intros i Hi. cbn [prepared heap set_heap sA]. by rewrite lookup_app_l.
Qed.

Lemma registered_after_members path l arr ext s r1 s1 :
  l < length (heap s) ->
  forEach (private_members (sequence s) arr path) (define_if_absent (VObject l))
          (prepared path l arr (set_heap s (heap s ++ ext))) = (r1, s1) ->
  property_value (heap s1) (VObject l) "addTraceListener"
  = property_value (heap s) (VObject l) "addTraceListener".
Proof.
  intros Hl H1. apply forEach_define_step in H1 as (_ & _ & Hstep & _).
  unfold property_value. f_equal.
  erewrite object_step_lookup; [|exact Hstep|].
  - by apply lookup_property_app.
  - cbn. intros Hin. rewrite !elem_of_cons, elem_of_nil in Hin.
    by destruct Hin as [|[|[|]]].
Qed.

(** X10.  An extensible object whose [addTraceListener] is truthy but not a
    function cannot be traced: the call [value.addTraceListener(...)] throws
    a TypeError.  By then the object has received the private members it
    lacked and the counter has been incremented; no proxy has been made. *)
Theorem trace_non_callable_registration_throws (path : string) (l : nat)
    (traceListeners : value) (s : state) (b : nat) (o : object) :
  resolve (heap s) l = Some (b, o) ->
  o_extensible o = true ->
  truthy (property_value (heap s) (VObject l) "addTraceListener") = true ->
  (forall f, property_value (heap s) (VObject l) "addTraceListener" <> VFunction f) ->
  exists s',
    trace path (VObject l) traceListeners s
    = (Throw (TypeError "value.addTraceListener is not a function"), s') /\
    sequence s' = (sequence s + 1)%Z /\
    proxy_targets (heap s') = proxy_targets (heap s) /\
    (forall name, name ∈ hidden_names ->
       is_Some (lookup_property (heap s') (VObject l) name)).
Proof.
  intros Hr Hext Htruthy Hnotf.
  pose proof (resolve_Some _ _ _ _ Hr) as (_ & _ & Hl).
  destruct (trace path (VObject l) traceListeners s) as [r s'] eqn:Htr.
  apply trace_inv in Htr as (arr & ext & Has & Hpt & Hcases). cbv zeta in Has, Hcases.
  set (sA := set_heap s (heap s ++ ext)) in *.
  assert (HrA : resolve (heap sA) l = Some (b, o)).
  { change (heap sA) with (heap s ++ ext). by rewrite resolve_app. }
  destruct Hcases as [(Hfr & _ & _)|(_ & r1 & s1 & H1 & Hcases)].
  { unfold isFrozen, gets in Hfr. rewrite HrA in Hfr. unfold frozen_object in Hfr.
    rewrite Hext in Hfr. discriminate. }
  destruct (forEach_define_extensible l (private_members (sequence s) arr path) b o
              (prepared path l arr sA) HrA Hext) as [s1' H1'].
  rewrite H1' in H1. injection H1 as <- <-.
  pose proof (registered_after_members _ _ _ _ _ _ _ Hl H1') as Hreg.
  apply forEach_define_step in H1' as (Hs1 & Hh1 & Hstep & Hkeep & Hdef).
  destruct Hcases as [(e & [=] & _)|(_ & r2 & s2 & H2 & Hcases)].
  rewrite register_listeners_eq, Hreg, Htruthy in H2.
  assert (Hcall : call host_call (property_value (heap s) (VObject l) "addTraceListener")
                    (VObject l) [arr] s1'
                  = (Throw (TypeError "value.addTraceListener is not a function"), s1')).
  { destruct (property_value (heap s) (VObject l) "addTraceListener") as [| | | | | |f|];
      try done. by destruct (Hnotf f). }
  rewrite Hcall in H2. injection H2 as <- <-.
  destruct Hcases as [(e & [= <-] & -> & ->)|(Hret & _)]; [|discriminate].
  exists s1'. split; [done|]. split; [done|]. split.
  - rewrite (object_step_proxy_targets _ _ _ _ Hstep).
    cbn [prepared heap set_heap sA]. unfold proxy_targets at 1. rewrite omap_app.
    fold (proxy_targets (heap s)). fold (proxy_targets ext). by rewrite Hpt, app_nil_r.
  - intros name Hin.
    destruct (lookup_property (heap (prepared path l arr sA)) (VObject l) name) as [p|] eqn:E.
    + rewrite Hkeep; rewrite E; by eexists.
    + destruct (hidden_name_member (sequence s) arr path name Hin) as [x Hx].
      erewrite Hdef; [by eexists|done| |exact Hx|exact E].
      change ((private_members (sequence s) arr path).*1) with hidden_names.
      unfold hidden_names. repeat (apply NoDup_cons; split; [set_solver|]). apply NoDup_nil_2.
Qed.

Lemma trace_return_members path l ls s w s' name :
  traceable s l ->
  trace path (VObject l) ls s = (Return w, s') ->
  name ∈ hidden_names ->
  is_Some (lookup_property (heap s') (VObject l) name).
Proof.
  intros (Hl & Hnf & Hhost) Htr Hin.
  destruct (trace_effect _ _ _ _ _ _ _ Hl Hnf Hhost Htr)
    as (arr & ext & h1 & _ & _ & _ & _ & _ & _ & _ & _ & _ & Hkeep & Hdef & _).
  destruct (lookup_property (heap s) (VObject l) name) as [p|] eqn:E.
  - rewrite Hkeep; [by rewrite E|by apply hidden_name_not_registration|by rewrite E].
  - destruct (hidden_name_member (sequence s) arr path name Hin) as [x Hx].
    by rewrite (Hdef w name x eq_refl Hx E).
Qed.

End WithHost.

Section WithCollaborators.

Variable host_call : nat -> value -> list value -> M value.
Variable TraceHandler_set : nat -> loc -> string -> value -> M unit.
Variable Paths_create : string -> string -> string.
Variable ObjectPaths_recurse : value -> state -> list ObjectPathEntry.

Abbreviation create :=
  (Proxies.create host_call TraceHandler_set Paths_create ObjectPaths_recurse).
Abbreviation create_entry :=
  (Proxies.create_entry host_call TraceHandler_set Paths_create).
Abbreviation create_entries :=
  (Proxies.create_entries host_call TraceHandler_set Paths_create).


Lemma create_entries_app opts arr root pre post s :
  create_entries opts arr root (pre ++ post) s =
    match create_entries opts arr root pre s with
    | (Return root1, s1) => create_entries opts arr root1 post s1
    | (Throw e, s1) => (Throw e, s1)
    end.
Proof.
  revert root s. induction pre as [|e pre IH]; intros root s; [done|].
  cbn [app Proxies.create_entries]. unfold bind.
  destruct (create_entry opts arr root e s) as [[root1|err] s1]; [|done].
  apply IH.
Qed.

(** X13.  A call of [create] that returns yields what [trace] returned for
    the last record without parent of the walk: the records before it have
    gone through, the record is traced under its prefixed path with the
    normalised listeners in the state those records left, which gives the
    value that [create] returns, and the records after it leave that root as
    it is.  When the walk has no record without parent (an empty walk is
    one), [create] returns [null]. *)
Theorem create_returns_last_root (target : nat) (traceListeners : value)
    (opts : option Objects.Options) (s : state) (r : value) (s' : state)
    (arr : value) (sN : state) :
  create (VObject target) traceListeners opts s = (Return r, s') ->
  normalise_listeners traceListeners s = (Return arr, sN) ->
  (Forall (fun e => e_parent e <> None) (ObjectPaths_recurse (VObject target) sN) ->
   r = VNull) /\
  (forall pre e rest,
     ObjectPaths_recurse (VObject target) sN = pre ++ e :: rest ->
     e_parent e = None ->
     Forall (fun e => e_parent e <> None) rest ->
     exists root0 s0 s1,
       create_entries (Objects.defaults opts (Objects.mkOptions (Some ""))) arr VNull pre sN
       = (Return root0, s0) /\
       Proxies.trace host_call (prefixed_path Paths_create opts e) (e_value e) arr s0
       = (Return r, s1) /\
       create_entries (Objects.defaults opts (Objects.mkOptions (Some ""))) arr r rest s1
       = (Return r, s')).
Proof.
  intros Hcreate Hnorm. rewrite create_eq, Hnorm in Hcreate. split.
  - intros Hall. by eapply create_entries_keep_root.
  - intros pre e rest Hwalk Hroot Hrest.
    rewrite Hwalk, create_entries_app in Hcreate.
    destruct (create_entries _ arr VNull pre sN) as [[root1|err] s0]; [|discriminate].
    cbn [Proxies.create_entries] in Hcreate. unfold bind at 1 in Hcreate.
    destruct (create_entry _ arr root1 e s0) as [[root2|err] s1] eqn:E; [|discriminate].
    pose proof (create_entries_keep_root _ _ _ _ _ _ _ _ _ _ Hrest Hcreate) as ->.
    unfold Proxies.create_entry, bind in E. rewrite Hroot, entry_path_defaults in E.
    destruct (Proxies.trace host_call _ _ arr s0) as [[proxy|err] s2] eqn:Htr; [|discriminate].
    injection E as <- <-. by exists root1, s0, s2.
Qed.

End WithCollaborators.

(** ** The theorems on concrete heaps *)

Import Scenario.

(** Location 0: the listener list [[]]; location 1:
    [Object.preventExtensions({b: 1})]. *)
Definition inextensible_object : state :=
  State 0 [CObject (array_object []);
           CObject (Object (o_props (literal [("b", VNumber 1)])) None false Ordinary)] [].

(** Location 0: the listener list [[]]; location 1:
    [{addTraceListener: "on"}]. *)
Definition labelled_object : state :=
  State 0 [CObject (array_object []);
           CObject (literal [("addTraceListener", VString "on")])] [].

(** A walk that yields two records without parent. *)
Definition walk_two_roots : value -> state -> list ObjectPathEntry :=
  fun _ _ => [mkEntry "" (VObject 1) None ""; mkEntry "" (VObject 2) None ""].

Lemma first_object_traceable : traceable one_object 1.
Proof. split; [simpl; lia|]. split; reflexivity. Defined.

Lemma trace_changes_only_traced_names_witness :
  let run := Proxies.trace quiet_host "p" (VObject 1) (VObject 0) one_object in
  resolve (heap one_object) 1 = Some (1, literal [("b", VNumber 1)]) /\
  truthy (property_value (heap one_object) (VObject 1) "addTraceListener") = false /\
  (forall i, i < length (heap one_object) -> i <> 1 ->
     heap run.2 !! i = heap one_object !! i) /\
  (forall l' name, l' < length (heap one_object) -> name ∉ traced_names ->
     lookup_property (heap run.2) (VObject l') name
     = lookup_property (heap one_object) (VObject l') name).
Proof.
  intros run. split; [reflexivity|]. split; [reflexivity|].
  destruct (trace_changes_only_traced_names quiet_host "p" 1 (VObject 0) one_object
              run.1 run.2 1 (literal [("b", VNumber 1)]) eq_refl eq_refl
              (surjective_pairing run)) as (Hcells & _ & Hnames).
  split; [exact Hcells | exact Hnames].
Defined.

Lemma trace_adds_no_enumerable_property_witness :
  let s1 := snd (Proxies.trace quiet_host "p" (VObject 1) (VObject 0) one_object) in
  traceable one_object 1 /\
  Proxies.trace quiet_host "p" (VObject 1) (VObject 0) one_object = (Return (VObject 2), s1) /\
  (forall name p,
     lookup_property (heap s1) (VObject 1) name = Some p ->
     p_enumerable p = true ->
     lookup_property (heap one_object) (VObject 1) name = Some p).
Proof.
  intros s1.
  assert (Htr : Proxies.trace quiet_host "p" (VObject 1) (VObject 0) one_object
                = (Return (VObject 2), s1)) by (vm_compute; reflexivity).
  split; [exact first_object_traceable|]. split; [exact Htr|].
  exact (proj1 (trace_adds_no_enumerable_property quiet_host "p" 1 (VObject 0) one_object
                  (VObject 2) s1 first_object_traceable Htr)).
Defined.

Lemma trace_non_extensible_throws_witness :
  resolve (heap inextensible_object) 1
  = Some (1, Object (o_props (literal [("b", VNumber 1)])) None false Ordinary) /\
  lookup_property (heap inextensible_object) (VObject 1) "__traceIdentifier" = None /\
  exists msg s',
    Proxies.trace quiet_host "p" (VObject 1) (VObject 0) inextensible_object
    = (Throw (TypeError msg), s') /\
    sequence s' = (sequence inextensible_object + 1)%Z.
Proof.
  split; [reflexivity|]. split; [reflexivity|].
  destruct (trace_non_extensible_throws quiet_host "p" 1 (VObject 0) inextensible_object 1
              (Object (o_props (literal [("b", VNumber 1)])) None false Ordinary)
              "__traceIdentifier" eq_refl eq_refl eq_refl)
    as (msg & s' & Htr & Hseq & _).
  - apply elem_of_cons. by left.
  - reflexivity.
  - exists msg, s'. split; [exact Htr | exact Hseq].
Defined.

Lemma trace_non_callable_registration_throws_witness :
  resolve (heap labelled_object) 1
  = Some (1, literal [("addTraceListener", VString "on")]) /\
  property_value (heap labelled_object) (VObject 1) "addTraceListener" = VString "on" /\
  exists s',
    Proxies.trace quiet_host "p" (VObject 1) (VObject 0) labelled_object
    = (Throw (TypeError "value.addTraceListener is not a function"), s') /\
    sequence s' = (sequence labelled_object + 1)%Z.
Proof.
  split; [reflexivity|]. split; [reflexivity|].
  destruct (trace_non_callable_registration_throws quiet_host "p" 1 (VObject 0)
              labelled_object 1 (literal [("addTraceListener", VString "on")])
              eq_refl eq_refl eq_refl)
    as (s' & Htr & Hseq & _).
  - intros f Hf. vm_compute in Hf. discriminate.
  - exists s'. split; [exact Htr | exact Hseq].
Defined.


Lemma create_returns_last_root_witness :
  let opts := Objects.defaults None (Objects.mkOptions (Some "")) in
  let run := Proxies.create quiet_host no_set_trap dotted walk_two_roots
               (VObject 1) (VObject 0) None two_objects in
  run = (Return (VObject 4), run.2) /\
  normalise_listeners (VObject 0) two_objects = (Return (VObject 0), two_objects) /\
  exists root0 s0 s1,
    Proxies.create_entries quiet_host no_set_trap dotted opts (VObject 0) VNull
      [mkEntry "" (VObject 1) None ""] two_objects = (Return root0, s0) /\
    Proxies.trace quiet_host (prefixed_path dotted None (mkEntry "" (VObject 2) None ""))
      (VObject 2) (VObject 0) s0 = (Return (VObject 4), s1) /\
    Proxies.create_entries quiet_host no_set_trap dotted opts (VObject 0) (VObject 4) [] s1
    = (Return (VObject 4), run.2).
Proof.
  intros opts run.
  assert (Hrun : run = (Return (VObject 4), run.2)) by (vm_compute; reflexivity).
  assert (Hnorm : normalise_listeners (VObject 0) two_objects
                  = (Return (VObject 0), two_objects)) by reflexivity.
  split; [exact Hrun|]. split; [exact Hnorm|].
  apply (proj2 (create_returns_last_root quiet_host no_set_trap dotted walk_two_roots
                  1 (VObject 0) None two_objects (VObject 4) run.2 (VObject 0) two_objects
                  Hrun Hnorm)
           [mkEntry "" (VObject 1) None ""] (mkEntry "" (VObject 2) None "") []).
  - reflexivity.
  - reflexivity.
  - apply Forall_nil_2.
Defined.

End ProxiesFrame.

(** * Proxies.create on whole walks *)

Module ProxiesCreate.
Import Proxies ProxiesSpec ProxiesFrame.

#[local] Arguments target_of : simpl never.
#[local] Arguments find_property : simpl never.

(** A plain object that has not been traced: an ordinary extensible object
    whose prototype is the built-in one and that has neither
    [addTraceListener] nor [__path]. *)
Definition plain_object (h : list cell) (l : nat) : Prop :=
  exists o, h !! l = Some (CObject o) /\
            o_proto o = None /\ o_extensible o = true /\
            o_props o !! "addTraceListener" = None /\
            o_props o !! "__path" = None.

(** A record of the walk over a graph of such objects: its value is one of
    them, its parent (if it has one) is an ordinary object, and the key it
    hangs under is none of the names that [trace] defines. *)
Definition fresh_record (h : list cell) (e : ObjectPathEntry) : Prop :=
  (exists l, e_value e = VObject l /\ plain_object h l) /\
  (e_parentKey e ∉ traced_names) /\
  match e_parent e with
  | Some p => exists op, h !! p = Some (CObject op)
  | None => True
  end.

Lemma resolve_object h l o : h !! l = Some (CObject o) -> resolve h l = Some (l, o).
Proof. intros H. unfold resolve. rewrite target_of_S, H. by rewrite H. Qed.

Lemma lookup_own h l o name :
  h !! l = Some (CObject o) -> o_proto o = None ->
  lookup_property h (VObject l) name = o_props o !! name.
Proof.
  intros H Hp. unfold lookup_property. rewrite find_property_S, H, Hp.
  by destruct (o_props o !! name).
Qed.

Lemma path_is_traced : "__path" ∈ traced_names.
Proof. unfold traced_names, hidden_names. set_solver. Qed.

Lemma registration_is_traced : "addTraceListener" ∈ traced_names.
Proof. unfold traced_names, hidden_names. set_solver. Qed.

Lemma normalise_listeners_state ls s r sN :
  normalise_listeners ls s = (r, sN) ->
  handlers sN = handlers s /\ sequence sN = sequence s /\
  exists ext, heap sN = heap s ++ ext.
Proof.
  unfold normalise_listeners, bind.
  destruct (negb (truthy ls)).
  - unfold new_array, bind, alloc, ret. rewrite asArray_eq. cbn [heap set_heap].
    destruct (isArray _ _); intros [= <- <-]; cbn [handlers sequence heap set_heap].
    + split; [done|]. split; [done|]. by eexists.
    + split; [done|]. split; [done|]. rewrite <- app_assoc. by eexists.
  - unfold ret. rewrite asArray_eq.
    destruct (isArray _ _); intros [= <- <-]; cbn [handlers sequence heap set_heap].
    + split; [done|]. split; [done|]. exists []. by rewrite app_nil_r.
    + split; [done|]. split; [done|]. by eexists.
Qed.

Section WithHost.

Variable host_call : nat -> value -> list value -> M value.

Abbreviation trace := (Proxies.trace host_call).
Abbreviation register_listeners := (Proxies.register_listeners host_call).

(** An extensible object without [addTraceListener] is traced without an
    error. *)
Lemma trace_unregistered_returns path l ls s b o :
  resolve (heap s) l = Some (b, o) ->
  o_extensible o = true ->
  lookup_property (heap s) (VObject l) "addTraceListener" = None ->
  exists w s', trace path (VObject l) ls s = (Return w, s').
Proof.
  intros Hr Hext Hnone.
  pose proof (resolve_Some _ _ _ _ Hr) as (_ & _ & Hl).
  destruct (trace path (VObject l) ls s) as [r s'] eqn:Htr.
  apply trace_inv in Htr as (arr & ext & Has & Hpt & Hcases). cbv zeta in Has, Hcases.
  set (sA := set_heap s (heap s ++ ext)) in *.
  assert (HrA : resolve (heap sA) l = Some (b, o)).
  { change (heap sA) with (heap s ++ ext). by rewrite resolve_app. }
  destruct Hcases as [(Hfr & _ & _)|(_ & r1 & s1 & H1 & Hcases)].
  { unfold isFrozen, gets in Hfr. rewrite HrA in Hfr. unfold frozen_object in Hfr.
    rewrite Hext in Hfr. discriminate. }
  destruct (forEach_define_extensible l (private_members (sequence s) arr path) b o
              (prepared path l arr sA) HrA Hext) as [s1' H1'].
  rewrite H1' in H1. injection H1 as <- <-.
  pose proof (registered_after_members _ _ _ _ _ _ _ Hl H1') as Hreg.
  apply forEach_define_step in H1' as (_ & _ & Hstep & _).
  destruct Hcases as [(e & [=] & _)|(_ & r2 & s2 & H2 & Hcases)].
  assert (Hundef : property_value (heap s) (VObject l) "addTraceListener" = VUndefined).
  { unfold property_value. by rewrite Hnone. }
  rewrite register_listeners_eq, Hreg, Hundef in H2. cbn [truthy] in H2.
  assert (Hnone1 : lookup_property (heap s1') (VObject l) "addTraceListener" = None).
  { erewrite object_step_lookup; [|exact Hstep|].
    - change (heap (prepared path l arr sA)) with (heap s ++ ext).
      by rewrite lookup_property_app.
    - cbn. intros Hin. rewrite !elem_of_cons, elem_of_nil in Hin.
      by destruct Hin as [|[|[|]]]. }
  pose proof (object_step_resolve _ _ _ _ l Hstep) as Hres.
  change (heap (prepared path l arr sA)) with (heap sA) in Hres. rewrite HrA in Hres.
  destruct (resolve (heap s1') l) as [[b1 o1]|] eqn:Hr1; [|done].
  destruct Hres as (_ & _ & Hext1 & _).
  unfold defineProperty in H2. rewrite Hr1 in H2. unfold define_data_property in H2.
  rewrite (lookup_None_own _ _ _ _ _ Hr1 Hnone1), Hext1, Hext in H2.
  injection H2 as <- <-.
  destruct Hcases as [(e & [=] & _)|(_ & -> & ->)]. by eexists _, _.
Qed.

(** What [trace] does to a plain object that has not been traced. *)
Lemma trace_plain path l ls s :
  plain_object (heap s) l ->
  exists w s' o',
    trace path (VObject l) ls s = (Return w, s') /\
    sequence s' = (sequence s + 1)%Z /\
    th_path <$> handlers s' = (th_path <$> handlers s) ++ [path] /\
    th_target <$> handlers s' = (th_target <$> handlers s) ++ [VObject l] /\
    (forall i c, heap s !! i = Some c -> i <> l -> heap s' !! i = Some c) /\
    heap s' !! l = Some (CObject o') /\
    o_proto o' = None /\ o_extensible o' = true /\
    o_props o' !! "__path" = Some (Property (VString path) false false false) /\
    (forall name, name ∉ traced_names ->
       forall o, heap s !! l = Some (CObject o) -> o_props o' !! name = o_props o !! name) /\
    exists p h, w = VObject p /\ heap s' !! p = Some (CProxy l h) /\ length (heap s) <= p.
Proof.
  intros (o & Hcell & Hproto & Hext & Hatl & Hpath).
  assert (Hl : l < length (heap s)) by (by eapply lookup_lt_Some).
  pose proof (resolve_object _ _ _ Hcell) as Hr.
  assert (Hnone : lookup_property (heap s) (VObject l) "addTraceListener" = None).
  { by rewrite (lookup_own _ _ _ _ Hcell Hproto). }
  destruct (trace_unregistered_returns path l ls s l o Hr Hext Hnone) as (w & s' & Htr).
  assert (Hnf : isFrozen (VObject l) s = (Return false, s)).
  { unfold isFrozen, gets. rewrite Hr. unfold frozen_object. by rewrite Hext. }
  assert (Hhost : registered_by_host (heap s) (VObject l) = false).
  { unfold registered_by_host, property_value. by rewrite Hnone. }
  destruct (trace_effect _ _ _ _ _ _ _ Hl Hnf Hhost Htr)
    as (arr & ext & h1 & _ & _ & Hseq & Hstep & Hheap & Hw & _ & Htg & Hpa & _ & Hdef & _).
  pose proof (object_step_length _ _ _ _ Hstep) as Hlen. rewrite length_app in Hlen.
  assert (HrA : resolve (heap s ++ ext) l = Some (l, o)) by (by rewrite resolve_app).
  destruct (object_step_cells _ _ _ _ _ _ Hstep HrA) as (Hother & o' & Ho' & Hre).
  destruct Hre as (Hproto' & Hext' & _ & Hnames).
  assert (Hcell' : heap s' !! l = Some (CObject o')).
  { rewrite Hheap, lookup_app_l by lia. exact Ho'. }
  assert (Hp' : o_proto o' = None) by congruence.
  exists w, s', o'. split_and!; try done; try congruence.
  - intros i c Hc Hne. assert (i < length (heap s)) by (by eapply lookup_lt_Some).
    rewrite Hheap, lookup_app_l by lia. rewrite Hother by done. by rewrite lookup_app_l.
  - rewrite <- (lookup_own _ _ _ _ Hcell' Hp').
    apply (Hdef w _ _ eq_refl).
    + unfold private_members. do 2 (apply elem_of_cons; right). apply elem_of_cons. by left.
    + by rewrite (lookup_own _ _ _ _ Hcell Hproto).
  - intros name Hn o1 Ho1. rewrite Hcell in Ho1. injection Ho1 as <-. by apply Hnames.
  - exists (length h1), (length (handlers s)). split; [by apply Hw|].
    split; [|lia]. rewrite Hheap. by rewrite lookup_app_r, Nat.sub_diag by lia.
Qed.

End WithHost.

Section WithCollaborators.

Variable host_call : nat -> value -> list value -> M value.
Variable TraceHandler_set : nat -> loc -> string -> value -> M unit.
Variable Paths_create : string -> string -> string.
Variable ObjectPaths_recurse : value -> state -> list ObjectPathEntry.

Abbreviation create :=
  (Proxies.create host_call TraceHandler_set Paths_create ObjectPaths_recurse).
Abbreviation create_entry :=
  (Proxies.create_entry host_call TraceHandler_set Paths_create).
Abbreviation create_entries :=
  (Proxies.create_entries host_call TraceHandler_set Paths_create).
Abbreviation assign := (Proxies.assign TraceHandler_set).

(** An assignment to a property of an ordinary object either is refused,
    leaving the state as it is, or replaces that one property. *)
Lemma assign_object parent key x s op r s2 :
  heap s !! parent = Some (CObject op) ->
  assign parent key x s = (r, s2) ->
  (exists e, r = Throw e /\ s2 = s) \/
  (r = Return tt /\ exists en c,
     s2 = set_heap s (<[parent := CObject (with_prop op key (Property x true en c))]> (heap s))).
Proof.
  intros Hcell. unfold Proxies.assign. rewrite Hcell.
  destruct (o_props op !! key) as [cur|].
  - destruct (p_writable cur); intros [= <- <-]; [right|left]; eauto.
  - destruct (lookup_property (heap s) (VObject parent) key) as [inh|].
    + destruct (p_writable inh); [|intros [= <- <-]; left; eauto].
      destruct (o_extensible op); intros [= <- <-]; [right|left]; eauto.
    + destruct (o_extensible op); intros [= <- <-]; [right|left]; eauto.
Qed.

(** One record of a walk over plain objects: its object is traced under the
    record's path, and every other object keeps the properties that [trace]
    defines. *)
Lemma create_entry_fresh opts arr root e0 l0 s r s2 :
  fresh_record (heap s) e0 ->
  e_value e0 = VObject l0 ->
  create_entry opts arr root e0 s = (r, s2) ->
  th_path <$> handlers s2 = (th_path <$> handlers s) ++ [entry_path Paths_create opts e0] /\
  th_target <$> handlers s2 = (th_target <$> handlers s) ++ [VObject l0] /\
  (exists o2, heap s2 !! l0 = Some (CObject o2) /\ o_proto o2 = None /\
              o_props o2 !! "__path"
              = Some (Property (VString (entry_path Paths_create opts e0)) false false false)) /\
  (forall l o, heap s !! l = Some (CObject o) -> l <> l0 ->
     exists o', heap s2 !! l = Some (CObject o') /\
                o_proto o' = o_proto o /\ o_extensible o' = o_extensible o /\
                forall name, name ∈ traced_names -> o_props o' !! name = o_props o !! name).
Proof.
  intros ((l & Hv & Hplain) & Hkey & Hparent) Hvalue Hentry.
  rewrite Hv in Hvalue. injection Hvalue as ->.
  unfold Proxies.create_entry in Hentry. rewrite Hv in Hentry. unfold bind at 1 in Hentry.
  destruct (trace_plain host_call (entry_path Paths_create opts e0) l0 arr s Hplain)
    as (w & s1 & o1 & Htr & _ & Hpa & Htg & Hframe & Hcell1 & Hproto1 & Hext1 & Hpath1 & _).
  rewrite Htr in Hentry.
  assert (Hframe1 : forall l o, heap s !! l = Some (CObject o) -> l <> l0 ->
            exists o', heap s1 !! l = Some (CObject o') /\
                       o_proto o' = o_proto o /\ o_extensible o' = o_extensible o /\
                       forall name, name ∈ traced_names -> o_props o' !! name = o_props o !! name).
  { intros l o Hc Hne. exists o. split; [by apply Hframe|done]. }
  destruct (e_parent e0) as [p|]; [|by injection Hentry as <- <-; eauto 10].
  destruct Hparent as [op Hop].
  assert (exists op1, heap s1 !! p = Some (CObject op1)) as [op1 Hop1].
  { destruct (decide (p = l0)) as [->|Hne]; [by eexists|].
    exists op. by apply Hframe. }
  unfold bind in Hentry.
  destruct (Proxies.assign TraceHandler_set p (e_parentKey e0) w s1) as [ra sa] eqn:Hassign.
  apply (assign_object _ _ _ _ _ _ _ Hop1) in Hassign
    as [(err & -> & ->)|(-> & en & c & ->)]; injection Hentry as <- <-.
  { eauto 10. }
  cbn [handlers set_heap heap]. split; [done|]. split; [done|].
  assert (Hnames : forall name, name ∈ traced_names ->
            o_props (with_prop op1 (e_parentKey e0) (Property w true en c)) !! name
            = o_props op1 !! name).
  { intros name Hin. cbn [with_prop o_props]. apply lookup_insert_ne.
    intros Heq. apply Hkey. by rewrite Heq. }
  split.
  - destruct (decide (p = l0)) as [->|Hne].
    + rewrite Hop1 in Hcell1. injection Hcell1 as ->.
      eexists. rewrite list_lookup_insert_eq by (by eapply lookup_lt_Some).
      split; [done|]. split; [done|]. rewrite Hnames; [done|apply path_is_traced].
    + exists o1. by rewrite list_lookup_insert_ne.
  - intros l o Hc Hne. destruct (Hframe1 l o Hc Hne) as (o' & Ho' & Hp' & He' & Hn').
    destruct (decide (p = l)) as [->|Hnp].
    + rewrite Hop1 in Ho'. injection Ho' as ->.
      eexists. rewrite list_lookup_insert_eq by (by eapply lookup_lt_Some).
      split; [done|]. split; [done|]. split; [done|].
      intros name Hin. rewrite Hnames by done. by apply Hn'.
    + exists o'. by rewrite list_lookup_insert_ne.
Qed.

Lemma fresh_record_step h h2 l0 e :
  (forall l o, h !! l = Some (CObject o) -> l <> l0 ->
     exists o', h2 !! l = Some (CObject o') /\
                o_proto o' = o_proto o /\ o_extensible o' = o_extensible o /\
                forall name, name ∈ traced_names -> o_props o' !! name = o_props o !! name) ->
  (exists o2, h2 !! l0 = Some (CObject o2)) ->
  e_value e <> VObject l0 ->
  fresh_record h e -> fresh_record h2 e.
Proof.
  intros Hframe [o2 Ho2] Hne ((l & Hv & o & Hc & Hp & He & Ha & Hpa) & Hkey & Hparent).
  assert (l <> l0) by congruence.
  destruct (Hframe l o Hc) as (o' & Ho' & Hp' & He' & Hn'); [done|].
  split; [|split; [done|]].
  - exists l. split; [done|]. exists o'. split_and!; try congruence.
    + rewrite Hn'; [done|apply registration_is_traced].
    + rewrite Hn'; [done|apply path_is_traced].
  - destruct (e_parent e) as [p|]; [|done]. destruct Hparent as [op Hop].
    destruct (decide (p = l0)) as [->|Hnp]; [by eexists|].
    destruct (Hframe p op Hop Hnp) as (op' & Hop' & _). by eexists.
Qed.

(** The walk, record by record: the first [k] records have been traced, each
    under its own path; [k] is the whole walk when the walk went through. *)
Lemma create_entries_fresh opts arr entries : forall root s r s',
  Forall (fresh_record (heap s)) entries ->
  NoDup (e_value <$> entries) ->
  create_entries opts arr root entries s = (r, s') ->
  exists k,
    k <= length entries /\
    (forall w, r = Return w -> k = length entries) /\
    th_path <$> handlers s'
    = (th_path <$> handlers s) ++ (entry_path Paths_create opts <$> take k entries) /\
    th_target <$> handlers s' = (th_target <$> handlers s) ++ (e_value <$> take k entries) /\
    (forall i e l, i < k -> entries !! i = Some e -> e_value e = VObject l ->
       lookup_property (heap s') (VObject l) "__path"
       = Some (Property (VString (entry_path Paths_create opts e)) false false false)) /\
    (forall l o, heap s !! l = Some (CObject o) -> VObject l ∉ (e_value <$> entries) ->
       exists o', heap s' !! l = Some (CObject o') /\ o_proto o' = o_proto o /\
                  o_props o' !! "__path" = o_props o !! "__path").
Proof.
  induction entries as [|e0 rest IH]; intros root s r s' Hall Hnd.
  - intros [= <- <-]. exists 0. split_and!.
    + done.
    + done.
    + by rewrite app_nil_r.
    + by rewrite app_nil_r.
    + intros i e l Hi. lia.
    + intros l o Hc _. by exists o.
  - apply Forall_cons in Hall as [Hfresh Hall].
    rewrite fmap_cons in Hnd. apply NoDup_cons in Hnd as [Hnotin Hnd].
    pose proof Hfresh as ((l0 & Hv0 & Hplain0) & _).
    cbn [Proxies.create_entries]. unfold bind at 1.
    destruct (create_entry opts arr root e0 s) as [r0 s2] eqn:H0.
    destruct (create_entry_fresh _ _ _ _ _ _ _ _ Hfresh Hv0 H0)
      as (Hpa & Htg & (o2 & Ho2 & Hproto2 & Hpath2) & Hframe).
    assert (Hhead : lookup_property (heap s2) (VObject l0) "__path"
              = Some (Property (VString (entry_path Paths_create opts e0)) false false false)).
    { by rewrite (lookup_own _ _ _ _ Ho2 Hproto2). }
    destruct r0 as [root1|err].
    + intros Hrest.
      assert (Hall2 : Forall (fresh_record (heap s2)) rest).
      { rewrite Forall_forall in Hall. apply Forall_forall. intros e Hin.
        eapply fresh_record_step; [exact Hframe|by eexists| |by apply Hall].
        intros Heq. apply Hnotin. rewrite Hv0, <- Heq. by apply list_elem_of_fmap_2. }
      destruct (IH root1 s2 r s' Hall2 Hnd Hrest)
        as (k & Hk & Hret & Hpa' & Htg' & Hpaths & Hkeep).
      exists (S k). cbn [length firstn]. rewrite !fmap_cons. split_and!.
      * lia.
      * intros w Hw. by rewrite (Hret w Hw).
      * rewrite Hpa', Hpa, <- app_assoc. done.
      * rewrite Htg', Htg, <- app_assoc, Hv0. done.
      * intros i e l Hi He Hv. destruct i as [|i].
        -- injection He as <-. rewrite Hv0 in Hv. injection Hv as <-.
           destruct (Hkeep l0 o2 Ho2) as (o' & Ho' & Hp' & Hpath'); [by rewrite <- Hv0|].
           rewrite (lookup_own _ _ _ _ Ho'); [|congruence]. congruence.
        -- apply (Hpaths i e l); [lia|done|done].
      * intros l o Hc Hnin. apply not_elem_of_cons in Hnin as [Hne Hnin].
        assert (l <> l0) by (intros ->; by rewrite Hv0 in Hne).
        destruct (Hframe l o Hc) as (o1 & Ho1 & Hp1 & _ & Hn1); [done|].
        destruct (Hkeep l o1 Ho1 Hnin) as (o' & Ho' & Hp' & Hpath').
        exists o'. split; [done|]. split; [congruence|].
        rewrite Hpath'. apply Hn1, path_is_traced.
    + intros [= <- <-]. exists 1. cbn [length firstn]. rewrite !fmap_cons. split_and!.
      * lia.
      * intros w [=].
      * by rewrite take_0.
      * by rewrite take_0, Hv0.
      * intros i e l Hi He Hv. assert (i = 0) as -> by lia.
        injection He as <-. rewrite Hv0 in Hv. by injection Hv as <-.
      * intros l o Hc Hnin. apply not_elem_of_cons in Hnin as [Hne _].
        assert (l <> l0) by (intros ->; by rewrite Hv0 in Hne).
        destruct (Hframe l o Hc) as (o1 & Ho1 & Hp1 & _ & Hn1); [done|].
        exists o1. split; [done|]. split; [done|]. apply Hn1, path_is_traced.
Qed.

(** C8.  On a walk over plain objects that have not been traced, [create]
    traces the records in order, each under the join of [pathPrefix] and its
    relative path when the caller gave a non-empty [pathPrefix], and under
    its relative path when [pathPrefix] was omitted or empty: these are, in
    the order of the walk, the paths of the trace handlers that [create]
    constructs, and the [__path] each object receives.  All records have been
    traced when [create] returns; when an assignment to a parent is refused,
    the records up to that one have been. *)
Theorem create_traces_prefixed_paths (target : nat) (traceListeners : value)
    (opts : option Objects.Options) (s : state) (r : result value) (s' : state)
    (arr : value) (sN : state) :
  normalise_listeners traceListeners s = (Return arr, sN) ->
  Forall (fresh_record (heap sN)) (ObjectPaths_recurse (VObject target) sN) ->
  NoDup (e_value <$> ObjectPaths_recurse (VObject target) sN) ->
  create (VObject target) traceListeners opts s = (r, s') ->
  let walk := ObjectPaths_recurse (VObject target) sN in
  let expected := fun entry =>
    match opts with
    | Some (Objects.mkOptions (Some prefix)) =>
        if String.eqb prefix "" then e_path entry else Paths_create prefix (e_path entry)
    | _ => e_path entry
    end in
  exists k,
    k <= length walk /\
    (forall w, r = Return w -> k = length walk) /\
    th_path <$> handlers s' = (th_path <$> handlers s) ++ (expected <$> take k walk) /\
    th_target <$> handlers s' = (th_target <$> handlers s) ++ (e_value <$> take k walk) /\
    (forall i entry l, i < k -> walk !! i = Some entry -> e_value entry = VObject l ->
       lookup_property (heap s') (VObject l) "__path"
       = Some (Property (VString (expected entry)) false false false)).
Proof.
  intros Hnorm Hfresh Hnd Hcreate walk expected.
  rewrite create_eq, Hnorm in Hcreate. fold walk in Hcreate, Hfresh, Hnd.
  destruct (normalise_listeners_state _ _ _ _ Hnorm) as (Hh & _ & _).
  destruct (create_entries_fresh _ _ _ _ _ _ _ Hfresh Hnd Hcreate)
    as (k & Hk & Hret & Hpa & Htg & Hpaths & _).
  assert (Hexp : forall entry,
            entry_path Paths_create (Objects.defaults opts (Objects.mkOptions (Some ""))) entry
            = expected entry) by (intros; apply entry_path_defaults).
  exists k. rewrite <- Hh. split_and!; try done.
  - rewrite Hpa. f_equal. apply list_fmap_ext. intros ? entry _. apply Hexp.
  - intros i entry l Hi He Hv. rewrite <- Hexp. by apply (Hpaths i).
Qed.

(** C6.  [create] on a frozen root that holds a plain child fails: the root
    is handed back as it is by [trace], the child is traced, and the
    assignment [parent[parentKey] = proxy] of line 63 is then refused with a
    TypeError.  The parent still holds the raw child, while the counter has
    been incremented and the child carries the private members. *)
Theorem create_frozen_parent_throws (target : nat) (traceListeners : value)
    (opts : option Objects.Options) (s : state) (arr : value) (sN : state)
    (root_entry child : ObjectPathEntry) (rest : list ObjectPathEntry)
    (o : object) (l b : nat) (oc : object) :
  normalise_listeners traceListeners s = (Return arr, sN) ->
  ObjectPaths_recurse (VObject target) sN = root_entry :: child :: rest ->
  e_value root_entry = VObject target ->
  e_parent root_entry = None ->
  heap sN !! target = Some (CObject o) ->
  frozen_object o = true ->
  e_value child = VObject l ->
  e_parent child = Some target ->
  is_Some (o_props o !! e_parentKey child) ->
  resolve (heap sN) l = Some (b, oc) ->
  o_extensible oc = true ->
  lookup_property (heap sN) (VObject l) "addTraceListener" = None ->
  exists s',
    create (VObject target) traceListeners opts s
    = (Throw (TypeError ("Cannot assign to read only property " ++ e_parentKey child)), s') /\
    heap s' !! target = Some (CObject o) /\
    sequence s' = (sequence s + 1)%Z /\
    (forall name, name ∈ hidden_names ->
       is_Some (lookup_property (heap s') (VObject l) name)).
Proof.
  intros Hnorm Hwalk Hrv Hrp Hcell Hfrozen Hcv Hcp [cur Hcur] Hr Hext Hnone.
  destruct (normalise_listeners_state _ _ _ _ Hnorm) as (_ & HseqN & _).
  pose proof (resolve_Some _ _ _ _ Hr) as (_ & _ & Hl).
  assert (Htarget : target < length (heap sN)) by (by eapply lookup_lt_Some).
  rewrite create_eq, Hnorm, Hwalk.
  cbn [Proxies.create_entries]. unfold bind at 1.
  unfold Proxies.create_entry at 1. rewrite Hrv, Hrp. unfold bind at 1.
  assert (Hfr : isFrozen (VObject target) sN = (Return true, sN)).
  { unfold isFrozen, gets. by rewrite (resolve_object _ _ _ Hcell), Hfrozen. }
  destruct (trace_frozen_effect host_call
              (entry_path Paths_create (Objects.defaults opts (Objects.mkOptions (Some "")))
                 root_entry) target arr sN Hfr)
    as (s1 & -> & Hseq1 & _ & (ext & Hheap1) & _).
  unfold ret at 1. unfold bind at 1.
  unfold Proxies.create_entry at 1. rewrite Hcv, Hcp. unfold bind at 1.
  assert (Hr1 : resolve (heap s1) l = Some (b, oc)) by (by rewrite Hheap1, resolve_app).
  assert (Hnone1 : lookup_property (heap s1) (VObject l) "addTraceListener" = None).
  { by rewrite Hheap1, lookup_property_app. }
  assert (Hl1 : l < length (heap s1)) by (rewrite Hheap1, length_app; lia).
  assert (Hcell1 : heap s1 !! target = Some (CObject o)) by (by rewrite Hheap1, lookup_app_l).
  destruct (trace_unregistered_returns host_call
              (entry_path Paths_create (Objects.defaults opts (Objects.mkOptions (Some "")))
                 child) l arr s1 b oc Hr1 Hext Hnone1) as (w & s2 & Htr).
  rewrite Htr.
  assert (Hhost1 : registered_by_host (heap s1) (VObject l) = false).
  { unfold registered_by_host, property_value. by rewrite Hnone1. }
  assert (Hnf1 : isFrozen (VObject l) s1 = (Return false, s1)).
  { unfold isFrozen, gets. rewrite Hr1. unfold frozen_object. by rewrite Hext. }
  assert (Hcell2 : heap s2 !! target = Some (CObject o)).
  { eapply trace_cells; [exact Hl1|exact Hhost1|exact Htr|exact Hcell1|].
    intros o1 Hres. apply resolve_Some in Hres as (Hb & _). congruence. }
  unfold bind, Proxies.assign. rewrite Hcell2, Hcur.
  rewrite (frozen_not_writable _ _ _ Hfrozen Hcur).
  eexists. split; [reflexivity|]. split; [done|]. split.
  - destruct (trace_effect _ _ _ _ _ _ _ Hl1 Hnf1 Hhost1 Htr) as (? & ? & ? & _ & _ & Hseq2 & _).
    congruence.
  - intros name Hin. by eapply trace_return_members.
Qed.

End WithCollaborators.

(** ** The theorems on concrete heaps *)

Import Scenario.

Lemma plain_parent_fresh :
  Forall (fresh_record (heap plain_parent)) (walk_parent_child (VObject 2) plain_parent).
Proof.
  assert (Hkey : "a" ∉ traced_names).
  { unfold traced_names, hidden_names. cbn [app]. rewrite !not_elem_of_cons.
    split_and!; try discriminate. apply not_elem_of_nil. }
  unfold walk_parent_child. repeat apply Forall_cons_2; [| |apply Forall_nil_2].
  - split; [|split; [|done]].
    + exists 2. split; [done|]. eexists. split; [reflexivity|]. by split_and!.
    + cbn [e_parentKey]. unfold traced_names, hidden_names. cbn [app].
      rewrite !not_elem_of_cons. split_and!; try discriminate. apply not_elem_of_nil.
  - split; [|split; [exact Hkey|]].
    + exists 1. split; [done|]. eexists. split; [reflexivity|]. by split_and!.
    + cbn [e_parent]. eexists. reflexivity.
Defined.

Lemma create_traces_prefixed_paths_witness :
  let opts := Some (Objects.mkOptions (Some "doc")) in
  let run := Proxies.create quiet_host no_set_trap dotted walk_parent_child
               (VObject 2) (VObject 0) opts plain_parent in
  normalise_listeners (VObject 0) plain_parent = (Return (VObject 0), plain_parent) /\
  fst run = Return (VObject 3) /\
  th_path <$> handlers run.2 = ["doc."; "doc.a"] /\
  th_target <$> handlers run.2 = [VObject 2; VObject 1] /\
  lookup_property (heap run.2) (VObject 1) "__path"
  = Some (Property (VString "doc.a") false false false).
Proof.
  intros opts run.
  assert (Hnorm : normalise_listeners (VObject 0) plain_parent
                  = (Return (VObject 0), plain_parent)) by reflexivity.
  assert (Hrun : fst run = Return (VObject 3)) by (vm_compute; reflexivity).
  assert (Hnd : NoDup (e_value <$> walk_parent_child (VObject 2) plain_parent)).
  { cbn. apply NoDup_cons. split; [|apply NoDup_singleton].
    rewrite list_elem_of_singleton. discriminate. }
  destruct (create_traces_prefixed_paths quiet_host no_set_trap dotted walk_parent_child
              2 (VObject 0) opts plain_parent run.1 run.2 (VObject 0) plain_parent
              Hnorm plain_parent_fresh Hnd (surjective_pairing run))
    as (k & _ & Hret & Hpa & Htg & Hpaths).
  rewrite (Hret _ Hrun) in Hpa, Htg, Hpaths.
  split; [exact Hnorm|]. split; [exact Hrun|]. split; [exact Hpa|]. split; [exact Htg|].
  apply (Hpaths 1 (mkEntry "a" (VObject 1) (Some 2) "a") 1); [cbn; lia|reflexivity|reflexivity].
Defined.

Lemma create_frozen_parent_throws_witness :
  let run := Proxies.create quiet_host no_set_trap dotted walk_parent_child
               (VObject 2) (VObject 0) None frozen_parent in
  isFrozen (VObject 2) frozen_parent = (Return true, frozen_parent) /\
  property_value (heap frozen_parent) (VObject 2) "a" = VObject 1 /\
  fst run = Throw (TypeError "Cannot assign to read only property a") /\
  property_value (heap run.2) (VObject 2) "a" = VObject 1 /\
  sequence run.2 = 1%Z.
Proof.
  intros run.
  destruct (create_frozen_parent_throws quiet_host no_set_trap dotted walk_parent_child
              2 (VObject 0) None frozen_parent (VObject 0) frozen_parent
              (mkEntry "" (VObject 2) None "") (mkEntry "a" (VObject 1) (Some 2) "a") []
              (freeze (literal [("a", VObject 1)])) 1 1 (literal [])
              eq_refl eq_refl eq_refl eq_refl eq_refl eq_refl eq_refl eq_refl)
    as (s' & Hrun & Hcell & Hseq & _).
  - exists (Property (VObject 1) false true false). vm_compute. reflexivity.
  - reflexivity.
  - reflexivity.
  - reflexivity.
  - fold run in Hrun. rewrite Hrun. cbn [fst snd].
    split; [reflexivity|]. split; [reflexivity|]. split; [reflexivity|].
    split; [|exact Hseq].
    unfold property_value, lookup_property. rewrite find_property_S, Hcell.
    vm_compute. reflexivity.
Defined.

End ProxiesCreate.

(** * Proxies.create: the edges of the walk *)

Module ProxiesRewire.
Import Proxies ProxiesSpec ProxiesFrame ProxiesCreate.

#[local] Arguments target_of : simpl never.
#[local] Arguments find_property : simpl never.

(** The edge a record hangs under. *)
Definition edge (e : ObjectPathEntry) : option nat * string :=
  (e_parent e, e_parentKey e).

(** The parent of the record is an ordinary object that holds [parentKey] as
    a writable property. *)
Definition writable_edge (h : list cell) (e : ObjectPathEntry) : Prop :=
  match e_parent e with
  | Some p => exists op cur, h !! p = Some (CObject op) /\
                             o_props op !! e_parentKey e = Some cur /\
                             p_writable cur = true
  | None => True
  end.

(** The property [key] of the object at [p] holds a proxy of the object at
    [l]. *)
Definition holds_proxy_of (h : list cell) (p : nat) (key : string) (l : nat) : Prop :=
  exists op pl th en c,
    h !! p = Some (CObject op) /\
    o_props op !! key = Some (Property (VObject pl) true en c) /\
    h !! pl = Some (CProxy l th).

Lemma own_property_value h p op key prop :
  h !! p = Some (CObject op) -> o_props op !! key = Some prop ->
  property_value h (VObject p) key = p_value prop.
Proof.
  intros Hc Hk. unfold property_value, lookup_property.
  by rewrite find_property_S, Hc, Hk.
Qed.

Section WithCollaborators.

Variable host_call : nat -> value -> list value -> M value.
Variable TraceHandler_set : nat -> loc -> string -> value -> M unit.
Variable Paths_create : string -> string -> string.
Variable ObjectPaths_recurse : value -> state -> list ObjectPathEntry.

Abbreviation create :=
  (Proxies.create host_call TraceHandler_set Paths_create ObjectPaths_recurse).
Abbreviation create_entry :=
  (Proxies.create_entry host_call TraceHandler_set Paths_create).
Abbreviation create_entries :=
  (Proxies.create_entries host_call TraceHandler_set Paths_create).
Abbreviation assign := (Proxies.assign TraceHandler_set).

Lemma assign_writable p key x s op cur :
  heap s !! p = Some (CObject op) ->
  o_props op !! key = Some cur ->
  p_writable cur = true ->
  assign p key x s
  = (Return tt,
     set_heap s (<[p := CObject (with_prop op key
                    (Property x true (p_enumerable cur) (p_configurable cur)))]> (heap s))).
Proof. intros Hc Hk Hw. unfold Proxies.assign. by rewrite Hc, Hk, Hw. Qed.

(** The properties that one record's turn leaves alone. *)
Definition kept (h h2 : list cell) (edges : list (option nat * string)) : Prop :=
  (forall l o name, h !! l = Some (CObject o) -> (Some l, name) ∉ edges ->
     name ∉ traced_names ->
     exists o', h2 !! l = Some (CObject o') /\ o_props o' !! name = o_props o !! name) /\
  (forall i t th, h !! i = Some (CProxy t th) -> h2 !! i = Some (CProxy t th)).

Lemma create_entry_rewires opts arr root e0 l0 s :
  fresh_record (heap s) e0 ->
  writable_edge (heap s) e0 ->
  e_value e0 = VObject l0 ->
  exists w s2 pl th,
    create_entry opts arr root e0 s
    = (Return (if e_parent e0 is Some _ then root else w), s2) /\
    w = VObject pl /\ heap s2 !! pl = Some (CProxy l0 th) /\
    (forall p, e_parent e0 = Some p -> holds_proxy_of (heap s2) p (e_parentKey e0) l0) /\
    kept (heap s) (heap s2) [edge e0].
Proof.
  intros ((l & Hv & Hplain) & Hkey & Hparent) Hedge Hvalue.
  rewrite Hv in Hvalue. injection Hvalue as ->.
  unfold Proxies.create_entry. rewrite Hv. unfold bind at 1.
  destruct (trace_plain host_call (entry_path Paths_create opts e0) l0 arr s Hplain)
    as (w & s1 & o1 & -> & _ & _ & _ & Hframe & Hcell1 & _ & _ & _ & Hnames & pl & th & -> & Hpl & Hge).
  assert (Hkept1 : kept (heap s) (heap s1) []).
  { split.
    - intros l o name Hc _ Hn. destruct (decide (l = l0)) as [->|Hne].
      + exists o1. split; [done|]. by apply Hnames.
      + exists o. split; [by apply Hframe|done].
    - intros i t th' Hc. apply Hframe; [done|]. intros ->.
      destruct Hplain as (o & Ho & _). congruence. }
  unfold writable_edge, edge in *.
  destruct (e_parent e0) as [p|].
  - destruct Hedge as (op & cur & Hop & Hcur & Hw).
    destruct Hkept1 as [Hobj1 Hprox1].
    destruct (Hobj1 p op (e_parentKey e0) Hop) as (op1 & Hop1 & Hcur1);
      [apply not_elem_of_nil|done|].
    rewrite Hcur in Hcur1.
    unfold bind. rewrite (assign_writable _ _ _ _ _ _ Hop1 Hcur1 Hw).
    assert (Hp : p < length (heap s1)) by (by eapply lookup_lt_Some).
    assert (Hplp : pl <> p) by (intros ->; congruence).
    eexists _, _, pl, th. split; [reflexivity|]. split; [done|]. cbn [heap set_heap].
    split; [by rewrite list_lookup_insert_ne|]. split; [|split].
    + intros p' [= <-]. eexists _, pl, th, _, _.
      rewrite list_lookup_insert_eq by done. split; [done|].
      cbn [with_prop o_props]. rewrite lookup_insert_eq. split; [done|].
      by rewrite list_lookup_insert_ne.
    + intros l o name Hc Hnin Hn.
      destruct (Hobj1 l o name Hc) as (o' & Ho' & Hprop'); [apply not_elem_of_nil|done|].
      destruct (decide (p = l)) as [->|Hne].
      * rewrite Hop1 in Ho'. injection Ho' as ->.
        eexists. rewrite list_lookup_insert_eq by done. split; [done|].
        cbn [with_prop o_props]. rewrite lookup_insert_ne; [done|].
        intros Heq. apply Hnin. apply list_elem_of_singleton. by rewrite Heq.
      * exists o'. by rewrite list_lookup_insert_ne.
    + intros i t th' Hc. rewrite list_lookup_insert_ne; [by apply Hprox1|].
      intros ->. apply Hprox1 in Hc. congruence.
  - eexists _, _, pl, th. split; [reflexivity|]. split; [done|]. split; [done|].
    split; [by intros p [=]|].
    destruct Hkept1 as [Hobj1 Hprox1]. split; [|done].
    intros l o name Hc _ Hn. apply (Hobj1 l o name Hc); [apply not_elem_of_nil|done].
Qed.

Lemma create_entries_rewires opts arr entries : forall root s,
  Forall (fresh_record (heap s)) entries ->
  NoDup (e_value <$> entries) ->
  Forall (writable_edge (heap s)) entries ->
  NoDup (edge <$> entries) ->
  exists root' s',
    create_entries opts arr root entries s = (Return root', s') /\
    (forall e p l, e ∈ entries -> e_parent e = Some p -> e_value e = VObject l ->
       holds_proxy_of (heap s') p (e_parentKey e) l) /\
    (forall e0 rest l, entries = e0 :: rest -> e_parent e0 = None ->
       Forall (fun e => e_parent e <> None) rest -> e_value e0 = VObject l ->
       exists pl th, root' = VObject pl /\ heap s' !! pl = Some (CProxy l th)) /\
    kept (heap s) (heap s') (edge <$> entries).
Proof.
  induction entries as [|e0 rest IH]; intros root s Hall Hnd Hedges Hnde.
  - exists root, s. split; [done|]. split; [|split].
    + intros e p l Hin. by apply elem_of_nil in Hin.
    + intros e0 rest l [=].
    + split; [intros l o name Hc _ _; by exists o|done].
  - apply Forall_cons in Hall as [Hfresh Hall].
    apply Forall_cons in Hedges as [Hedge Hedges].
    rewrite fmap_cons in Hnd. apply NoDup_cons in Hnd as [Hnotin Hnd].
    rewrite fmap_cons in Hnde. apply NoDup_cons in Hnde as [Henotin Hnde].
    pose proof Hfresh as ((l0 & Hv0 & Hplain0) & Hkey0 & _).
    destruct (create_entry_rewires opts arr root e0 l0 s Hfresh Hedge Hv0)
      as (w & s2 & pl & th & H0 & Hw & Hpl & Hset & Hobj & Hprox).
    assert (Hfresh2 : Forall (fresh_record (heap s2)) rest).
    { rewrite Forall_forall in Hall. apply Forall_forall. intros e Hin.
      destruct (create_entry_fresh host_call TraceHandler_set Paths_create
                  _ _ _ _ _ _ _ _ Hfresh Hv0 H0) as (_ & _ & (o2 & Ho2 & _) & Hframe).
      eapply fresh_record_step; [exact Hframe|by eexists| |by apply Hall].
      intros Heq. apply Hnotin. rewrite Hv0, <- Heq. by apply list_elem_of_fmap_2. }
    assert (Hedges2 : Forall (writable_edge (heap s2)) rest).
    { rewrite Forall_forall in Hedges, Hall. apply Forall_forall. intros e Hin.
      specialize (Hedges e Hin). destruct (Hall e Hin) as (_ & Hkey & _).
      unfold writable_edge in *. destruct (e_parent e) as [p|] eqn:Hp; [|done].
      destruct Hedges as (op & cur & Hop & Hcur & Hwr).
      destruct (Hobj p op (e_parentKey e) Hop) as (op' & Hop' & Hprop'); [|done|].
      { intros Hin'. apply list_elem_of_singleton in Hin'. apply Henotin.
        rewrite <- Hin'. unfold edge. rewrite <- Hp. by apply (list_elem_of_fmap_2 edge). }
      exists op', cur. by rewrite Hprop'. }
    destruct (IH (if e_parent e0 is Some _ then root else w) s2 Hfresh2 Hnd Hedges2 Hnde)
      as (root' & s' & Hrest & Hall' & _ & Hobj' & Hprox').
    exists root', s'. split; [|split; [|split; [|split]]].
    + cbn [Proxies.create_entries]. unfold bind at 1. by rewrite H0.
    + intros e p l Hin Hp Hv. apply elem_of_cons in Hin as [->|Hin].
      * rewrite Hv0 in Hv. injection Hv as <-.
        destruct (Hset p Hp) as (op & pl' & th' & en & c & Hop & Hprop & Hcell).
        destruct (Hobj' p op (e_parentKey e0) Hop) as (op' & Hop' & Hprop'); [|done|].
        { unfold edge in Henotin. by rewrite Hp in Henotin. }
        exists op', pl', th', en, c. split; [done|]. split; [congruence|].
        by apply Hprox'.
      * by apply (Hall' e).
    + intros e1 rest1 l [= <- <-] Hroot Hparents Hv.
      rewrite Hv0 in Hv. injection Hv as <-. rewrite Hroot in Hrest.
      pose proof (create_entries_keep_root _ _ _ _ _ _ _ _ _ _ Hparents Hrest) as ->.
      exists pl, th. split; [done|]. by apply Hprox'.
    + intros l o name Hc Hnin Hn. rewrite fmap_cons in Hnin.
      apply not_elem_of_cons in Hnin as [Hne Hnin].
      destruct (Hobj l o name Hc) as (o1 & Ho1 & Hp1); [|done|].
      { intros Hin'. by apply list_elem_of_singleton in Hin'. }
      destruct (Hobj' l o1 name Ho1 Hnin Hn) as (o' & Ho' & Hp').
      exists o'. split; [done|]. congruence.
    + intros i t th' Hc. by apply Hprox', Hprox.
Qed.

(** X14.  On a walk over plain objects that have not been traced, each
    hanging under a writable property of an ordinary parent, [create] goes
    through: it returns, every edge of the walk then holds a proxy of the
    child it led to, and, the walk being the root's record followed by
    records with parents, the value returned is a proxy of the root. *)
Theorem create_rewires_edges (target : nat) (traceListeners : value)
    (opts : option Objects.Options) (s : state) (arr : value) (sN : state) :
  normalise_listeners traceListeners s = (Return arr, sN) ->
  Forall (fresh_record (heap sN)) (ObjectPaths_recurse (VObject target) sN) ->
  NoDup (e_value <$> ObjectPaths_recurse (VObject target) sN) ->
  Forall (writable_edge (heap sN)) (ObjectPaths_recurse (VObject target) sN) ->
  NoDup (edge <$> ObjectPaths_recurse (VObject target) sN) ->
  let walk := ObjectPaths_recurse (VObject target) sN in
  exists r s',
    create (VObject target) traceListeners opts s = (Return r, s') /\
    (forall e p l, e ∈ walk -> e_parent e = Some p -> e_value e = VObject l ->
       exists pl th,
         property_value (heap s') (VObject p) (e_parentKey e) = VObject pl /\
         heap s' !! pl = Some (CProxy l th)) /\
    (forall root_entry rest l,
       walk = root_entry :: rest ->
       e_parent root_entry = None ->
       Forall (fun e => e_parent e <> None) rest ->
       e_value root_entry = VObject l ->
       exists pl th, r = VObject pl /\ heap s' !! pl = Some (CProxy l th)).
Proof.
  intros Hnorm Hfresh Hnd Hedges Hnde walk.
  fold walk in Hfresh, Hnd, Hedges, Hnde.
  destruct (create_entries_rewires (Objects.defaults opts (Objects.mkOptions (Some "")))
              arr walk VNull sN Hfresh Hnd Hedges Hnde)
    as (r & s' & Hrun & Hall & Hroot & _).
  exists r, s'. split; [by rewrite create_eq, Hnorm|]. split; [|exact Hroot].
  intros e p l Hin Hp Hv.
  destruct (Hall e p l Hin Hp Hv) as (op & pl & th & en & c & Hop & Hprop & Hcell).
  exists pl, th. split; [|done]. by rewrite (own_property_value _ _ _ _ _ Hop Hprop).
Qed.

End WithCollaborators.

(** ** The theorem on a concrete heap *)

Import Scenario.

Lemma create_rewires_edges_witness :
  let run := Proxies.create quiet_host no_set_trap dotted walk_parent_child
               (VObject 2) (VObject 0) None plain_parent in
  normalise_listeners (VObject 0) plain_parent = (Return (VObject 0), plain_parent) /\
  exists r s',
    run = (Return r, s') /\
    (exists pl th,
       property_value (heap s') (VObject 2) "a" = VObject pl /\
       heap s' !! pl = Some (CProxy 1 th)) /\
    (exists pl th, r = VObject pl /\ heap s' !! pl = Some (CProxy 2 th)).
Proof.
  intros run.
  assert (Hnorm : normalise_listeners (VObject 0) plain_parent
                  = (Return (VObject 0), plain_parent)) by reflexivity.
  split; [exact Hnorm|].
  destruct (create_rewires_edges quiet_host no_set_trap dotted walk_parent_child
              2 (VObject 0) None plain_parent (VObject 0) plain_parent Hnorm
              plain_parent_fresh) as (r & s' & Hrun & Hedges & Hroot).
  - cbn. apply NoDup_cons. split; [|apply NoDup_singleton].
    rewrite list_elem_of_singleton. discriminate.
  - unfold walk_parent_child. repeat apply Forall_cons_2; [done| |apply Forall_nil_2].
    eexists _, (Property (VObject 1) true true true). split; [reflexivity|].
    split; [vm_compute; reflexivity|reflexivity].
  - cbn. apply NoDup_cons. split; [|apply NoDup_singleton].
    rewrite list_elem_of_singleton. discriminate.
  - exists r, s'. split; [exact Hrun|]. split.
    + apply (Hedges (mkEntry "a" (VObject 1) (Some 2) "a") 2 1); [|reflexivity|reflexivity].
      unfold walk_parent_child. apply elem_of_cons. right. apply elem_of_cons. by left.
    + apply (Hroot (mkEntry "" (VObject 2) None "") [mkEntry "a" (VObject 1) (Some 2) "a"] 2);
        [reflexivity|reflexivity| |reflexivity].
      apply Forall_cons_2; [discriminate|apply Forall_nil_2].
Defined.

End ProxiesRewire.
